(** * Missile-defence simulation core: a shallow embedding and its properties

    The program is a single React component ([App]) that owns the whole
    simulation: the session reset ([startGame]), the launch handler
    ([handleCanvasClick]) and the per-frame step ([update]).

    Modelling conventions.
    - A JavaScript [number] that carries a coordinate, a time, a speed or a
      radius is a real number ([R]); [Math.sqrt], [Math.abs], [Math.max] and
      [Math.floor] are [sqrt], [Rabs], [Rmax] and [Int_part].  Rounding of
      IEEE doubles is not modelled.  Ammunition counts and the score only
      ever hold integers and are [Z].
    - The [useRef] cells and the [useState] cells are the fields of one
      record, [World], threaded through every function.  A frame reads
      [cities], [batteries] and [gameState] from the render it was created
      in; the queued [setX(prev => ...)] updaters are applied, in order, to
      the cell itself.
    - [Math.random()] is an input: a function receives the draws it makes
      as arguments; the id of a dynamic entity is the draw it was printed
      from.
    - Calls into [sounds] and [draw] do not touch the simulation state and
      are left out. *)

From Stdlib Require Import Reals Lra Lia ZArith List String Bool.
Import ListNotations.
Open Scope R_scope.

(** ** Numbers *)

Module Num.

Definition leb (a b : R) : bool := if Rle_dec a b then true else false.
Definition ltb (a b : R) : bool := if Rlt_dec a b then true else false.
Definition eqb (a b : R) : bool := if Req_dec_T a b then true else false.

(** [Math.floor]. *)
Definition floor (r : R) : Z := Int_part r.

End Num.

(** ** types.ts *)

Inductive GameMode := LOW | NORMAL | HIGH | ULTRA | FUTURE.

Inductive Status := START | PLAYING | WON | LOST.

Definition Status_eqb (a b : Status) : bool :=
  match a, b with
  | START, START | PLAYING, PLAYING | WON, WON | LOST, LOST => true
  | _, _ => false
  end.

Record Point := mkPoint { p_x : R; p_y : R }.

(** [Missile] and [Enemy] extend [Entity] with [startPos]; every site that
    builds one sets [target], which the code reads through [target!]. *)
Record Missile := mkMissile {
  m_id : R;
  m_pos : Point;
  m_startPos : Point;
  m_target : Point;
  m_speed : R;
  m_radius : R;
  m_color : string;
  m_active : bool
}.

Record Enemy := mkEnemy {
  e_id : R;
  e_pos : Point;
  e_startPos : Point;
  e_target : Point;
  e_speed : R;
  e_radius : R;
  e_color : string;
  e_active : bool
}.

(** [Explosion] extends [Entity]; no site sets its [target]. *)
Record Explosion := mkExplosion {
  x_id : R;
  x_pos : Point;
  x_speed : R;
  x_radius : R;
  x_maxRadius : R;
  x_growthRate : R;
  x_isShrinking : bool;
  x_color : string;
  x_active : bool
}.

Record Battery := mkBattery {
  b_id : string;
  b_pos : Point;
  b_missiles : Z;
  b_maxMissiles : Z;
  b_destroyed : bool
}.

Record City := mkCity {
  c_id : string;
  c_pos : Point;
  c_destroyed : bool
}.

Record GameState := mkGameState {
  gs_score : Z;
  gs_level : Z;
  gs_mode : GameMode;
  gs_status : Status
}.

(** ** constants.ts *)

Definition GAME_WIDTH : R := 800.
Definition GAME_HEIGHT : R := 600.

Record ModeConfig := mkModeConfig { speedMult : R; powerMult : R }.

Definition MODE_CONFIGS (m : GameMode) : ModeConfig :=
  match m with
  | LOW => mkModeConfig 1 1
  | NORMAL => mkModeConfig (14 / 10) (11 / 10)
  | HIGH => mkModeConfig (18 / 10) (12 / 10)
  | ULTRA => mkModeConfig (22 / 10) (13 / 10)
  | FUTURE => mkModeConfig (26 / 10) (14 / 10)
  end.

Module COLORS.
Definition PLAYER_MISSILE : string := "#00ffcc".
Definition ENEMY_MISSILE : string := "#ff4444".
Definition EXPLOSION : string := "rgba(255, 255, 255, 0.8)".
Definition CITY : string := "#4ade80".
Definition BATTERY : string := "#60a5fa".
Definition X_MARK : string := "#ffffff".
End COLORS.

Definition WIN_SCORE : Z := 1000.

(** ** App: initial layout and the state cells *)

Definition INITIAL_BATTERIES : list Battery :=
  [ mkBattery "b1" (mkPoint 100 560) 20 20 false;
    mkBattery "b2" (mkPoint 400 560) 40 40 false;
    mkBattery "b3" (mkPoint 700 560) 20 20 false ].

Definition INITIAL_CITIES : list City :=
  [ mkCity "c1" (mkPoint 200 570) false;
    mkCity "c2" (mkPoint 300 570) false;
    mkCity "c3" (mkPoint 500 570) false;
    mkCity "c4" (mkPoint 600 570) false ].

Record World := mkWorld {
  gameState : GameState;
  batteries : list Battery;
  cities : list City;
  missilesRef : list Missile;
  enemiesRef : list Enemy;
  explosionsRef : list Explosion;
  lastTimeRef : R;
  spawnTimerRef : R;
  scoreRef : Z
}.

(** The component's state at mount, before any session. *)
Definition initialWorld : World :=
  mkWorld (mkGameState 0 1 NORMAL START) INITIAL_BATTERIES INITIAL_CITIES
          [] [] [] 0 0 0.

Definition set_gameState (g : GameState) (w : World) : World :=
  mkWorld g (batteries w) (cities w) (missilesRef w) (enemiesRef w)
          (explosionsRef w) (lastTimeRef w) (spawnTimerRef w) (scoreRef w).

Definition set_batteries (bs : list Battery) (w : World) : World :=
  mkWorld (gameState w) bs (cities w) (missilesRef w) (enemiesRef w)
          (explosionsRef w) (lastTimeRef w) (spawnTimerRef w) (scoreRef w).

Definition set_cities (cs : list City) (w : World) : World :=
  mkWorld (gameState w) (batteries w) cs (missilesRef w) (enemiesRef w)
          (explosionsRef w) (lastTimeRef w) (spawnTimerRef w) (scoreRef w).

Definition set_missilesRef (ms : list Missile) (w : World) : World :=
  mkWorld (gameState w) (batteries w) (cities w) ms (enemiesRef w)
          (explosionsRef w) (lastTimeRef w) (spawnTimerRef w) (scoreRef w).

Definition set_enemiesRef (es : list Enemy) (w : World) : World :=
  mkWorld (gameState w) (batteries w) (cities w) (missilesRef w) es
          (explosionsRef w) (lastTimeRef w) (spawnTimerRef w) (scoreRef w).

Definition set_explosionsRef (xs : list Explosion) (w : World) : World :=
  mkWorld (gameState w) (batteries w) (cities w) (missilesRef w) (enemiesRef w)
          xs (lastTimeRef w) (spawnTimerRef w) (scoreRef w).

Definition set_lastTimeRef (t : R) (w : World) : World :=
  mkWorld (gameState w) (batteries w) (cities w) (missilesRef w) (enemiesRef w)
          (explosionsRef w) t (spawnTimerRef w) (scoreRef w).

Definition set_spawnTimerRef (t : R) (w : World) : World :=
  mkWorld (gameState w) (batteries w) (cities w) (missilesRef w) (enemiesRef w)
          (explosionsRef w) (lastTimeRef w) t (scoreRef w).

Definition set_scoreRef (s : Z) (w : World) : World :=
  mkWorld (gameState w) (batteries w) (cities w) (missilesRef w) (enemiesRef w)
          (explosionsRef w) (lastTimeRef w) (spawnTimerRef w) s.

(** [arr.forEach(x => body)] where [body] mutates [x] in place and the
    shared cells [s]: the array afterwards holds the mutated elements. *)
Fixpoint forEach {S A : Type} (body : S -> A -> S * A) (s : S) (l : list A)
  : S * list A :=
  match l with
  | [] => (s, [])
  | a :: l' =>
      let '(s1, a1) := body s a in
      let '(s2, l2) := forEach body s1 l' in
      (s2, a1 :: l2)
  end.

(** ** startGame *)

Definition startGame (mode : GameMode) (w : World) : World :=
  mkWorld (mkGameState 0 1 mode PLAYING)
          (map (fun b => mkBattery (b_id b) (b_pos b) (b_maxMissiles b)
                                   (b_maxMissiles b) false)
               INITIAL_BATTERIES)
          (map (fun c => mkCity (c_id c) (c_pos c) false) INITIAL_CITIES)
          [] [] [] 0 0 0.

(** ** handleCanvasClick *)

(** The canvas and the pointer event as the handler reads them:
    [canvas.width], [canvas.height], [getBoundingClientRect()] and the
    client coordinates of the click or of the first touch. *)
Record Canvas := mkCanvas {
  cv_width : R; cv_height : R;
  rect_left : R; rect_top : R; rect_width : R; rect_height : R
}.

Record Pointer := mkPointer { clientX : R; clientY : R }.

(** One round of [batteries.forEach]: [acc] is [(bestBattery, minDist)],
    with [None] for [null] and for [Infinity]. *)
Definition closer (targetX : R) (acc : option Battery * option R) (b : Battery)
  : option Battery * option R :=
  if negb (b_destroyed b) && (0 <? b_missiles b)%Z then
    let dist := Rabs (p_x (b_pos b) - targetX) in
    if match snd acc with None => true | Some minDist => Num.ltb dist minDist end
    then (Some b, Some dist)
    else acc
  else acc.

Definition bestBattery (targetX : R) (bs : list Battery) : option Battery :=
  fst (fold_left (closer targetX) bs (None, None)).

(** Lines 84-114: the launch proper, for a resolved playfield point;
    [idDraw] is the draw the new missile's id is printed from. *)
Definition launch (idDraw : R) (target : Point) (w : World) : World :=
  match bestBattery (p_x target) (batteries w) with
  | Some b =>
      let w1 :=
        set_batteries
          (map (fun pb =>
                  if String.eqb (b_id pb) (b_id b)
                  then mkBattery (b_id pb) (b_pos pb) (b_missiles pb - 1)
                                 (b_maxMissiles pb) (b_destroyed pb)
                  else pb)
               (batteries w)) w in
      let config := MODE_CONFIGS (gs_mode (gameState w)) in
      set_missilesRef
        (missilesRef w1 ++
         [mkMissile idDraw (b_pos b) (b_pos b) target (5 * speedMult config) 2
                    COLORS.PLAYER_MISSILE true])
        w1
  | None => w
  end.

Definition handleCanvasClick (idDraw : R) (canvas : option Canvas)
  (ev : Pointer) (w : World) : World :=
  if negb (Status_eqb (gs_status (gameState w)) PLAYING) then w else
  match canvas with
  | None => w
  | Some cv =>
      let scaleX := cv_width cv / rect_width cv in
      let scaleY := cv_height cv / rect_height cv in
      let targetX := (clientX ev - rect_left cv) * scaleX in
      let targetY := (clientY ev - rect_top cv) * scaleY in
      launch idDraw (mkPoint targetX targetY) w
  end.

(** ** update *)

(** The draws one frame can make.  The spawn block draws, in this order,
    the index into the target options, the id, [pos.x], [startPos.x] and
    the speed jitter; each arrival draws the id of the explosion it pushes,
    here indexed by the length of [explosionsRef] at the push. *)
Record Draws := mkDraws {
  d_target : R;
  d_id : R;
  d_posX : R;
  d_startX : R;
  d_speed : R;
  d_blastId : nat -> R
}.

(** [arr[i]] for an integral index: [undefined] outside the array. *)
Definition at_index {A : Type} (l : list A) (i : Z) : option A :=
  if (i <? 0)%Z then None else nth_error l (Z.to_nat i).

Definition set_status (s : Status) (g : GameState) : GameState :=
  mkGameState (gs_score g) (gs_level g) (gs_mode g) s.

Definition set_score (n : Z) (g : GameState) : GameState :=
  mkGameState n (gs_level g) (gs_mode g) (gs_status g).

(** *** Spawn enemies (lines 134-153) *)

Definition spawnInterval (score : Z) : R :=
  Rmax 500 (2000 - (IZR score / 100) * 100).

(** The positions of [[...cities.filter(..), ...batteries.filter(..)]];
    the code reads nothing but [.pos] from the chosen element. *)
Definition targetOptions (cs : list City) (bs : list Battery) : list Point :=
  map c_pos (filter (fun c => negb (c_destroyed c)) cs) ++
  map b_pos (filter (fun b => negb (b_destroyed b)) bs).

(** [cs] and [bs] are the [cities] and [batteries] of the render the frame
    closes over.  An index outside the options cannot arise from a draw in
    [[0, 1)] (see [spawn_index_in_range]); that branch spawns nothing. *)
Definition spawnEnemies (d : Draws) (config : ModeConfig) (deltaTime : R)
  (cs : list City) (bs : list Battery) (w : World) : World :=
  let w1 := set_spawnTimerRef (spawnTimerRef w + deltaTime) w in
  if Num.ltb (spawnInterval (scoreRef w1)) (spawnTimerRef w1) then
    let w2 := set_spawnTimerRef 0 w1 in
    let opts := targetOptions cs bs in
    if (0 <? List.length opts)%nat then
      match at_index opts (Num.floor (d_target d * INR (List.length opts))) with
      | Some target =>
          set_enemiesRef
            (enemiesRef w2 ++
             [mkEnemy (d_id d)
                      (mkPoint (d_posX d * GAME_WIDTH) (-20))
                      (mkPoint (d_startX d * GAME_WIDTH) (-20))
                      target
                      ((8 / 10 + d_speed d * (6 / 10)) * speedMult config)
                      2 COLORS.ENEMY_MISSILE true])
            w2
      | None => w2
      end
    else w2
  else w1.

(** *** Update player missiles (lines 155-181) *)

Definition distance (dx dy : R) : R := sqrt (dx * dx + dy * dy).

Definition arrived (dist moveDist : R) : bool :=
  Num.leb dist moveDist || Num.eqb dist 0.

Definition updateMissile (d : Draws) (config : ModeConfig) (speedScale : R)
  (w : World) (m : Missile) : World * Missile :=
  if negb (m_active m) then (w, m) else
  let dx := p_x (m_target m) - p_x (m_pos m) in
  let dy := p_y (m_target m) - p_y (m_pos m) in
  let dist := distance dx dy in
  let moveDist := m_speed m * speedScale in
  if arrived dist moveDist then
    (set_explosionsRef
       (explosionsRef w ++
        [mkExplosion (d_blastId d (List.length (explosionsRef w))) (m_target m)
                     0 2 (96 * powerMult config) (3 * speedScale) false
                     COLORS.EXPLOSION true])
       w,
     mkMissile (m_id m) (m_pos m) (m_startPos m) (m_target m) (m_speed m)
               (m_radius m) (m_color m) false)
  else
    (w,
     mkMissile (m_id m)
               (mkPoint (p_x (m_pos m) + (dx / dist) * moveDist)
                        (p_y (m_pos m) + (dy / dist) * moveDist))
               (m_startPos m) (m_target m) (m_speed m) (m_radius m)
               (m_color m) (m_active m)).

(** *** Update enemies (lines 183-236) *)

(** The ground test of lines 196 and 202, with threshold [k]. *)
Definition near (k : R) (p q : Point) : bool :=
  Num.ltb (Rabs (p_x p - p_x q)) k && Num.ltb (Rabs (p_y p - p_y q)) k.

Definition impactCities (at_ : Point) (cs : list City) : list City :=
  map (fun c => if near 25 (c_pos c) at_
                then mkCity (c_id c) (c_pos c) true else c) cs.

Definition impactBatteries (at_ : Point) (bs : list Battery) : list Battery :=
  map (fun b => if near 35 (b_pos b) at_
                then mkBattery (b_id b) (b_pos b) (b_missiles b)
                               (b_maxMissiles b) true
                else b) bs.

(** The condition under which line 229 holds for a tested explosion. *)
Definition blastHits (e : Enemy) (exp : Explosion) : bool :=
  String.eqb (x_color exp) COLORS.EXPLOSION && x_active exp &&
  Num.ltb (distance (p_x (e_pos e) - p_x (x_pos exp))
                    (p_y (e_pos e) - p_y (x_pos exp)))
          (x_radius exp + 10).

(** Lines 231-232: the score cell, then the score shown by the panel. *)
Definition scoreHit (w : World) : World :=
  let w1 := set_scoreRef (scoreRef w + 20) w in
  set_gameState (set_score (scoreRef w1) (gameState w1)) w1.

(** One round of the inner [explosionsRef.current.forEach] (lines 224-235). *)
Definition collide (s : World * Enemy) (exp : Explosion) : World * Enemy :=
  let '(w, e) := s in
  if String.eqb (x_color exp) COLORS.EXPLOSION && x_active exp then
    let edx := p_x (e_pos e) - p_x (x_pos exp) in
    let edy := p_y (e_pos e) - p_y (x_pos exp) in
    let edist := distance edx edy in
    if Num.ltb edist (x_radius exp + 10) then
      (scoreHit w,
       mkEnemy (e_id e) (e_pos e) (e_startPos e) (e_target e) (e_speed e)
               (e_radius e) (e_color e) false)
    else (w, e)
  else (w, e).

Definition moveEnemy (d : Draws) (speedScale : R) (w : World) (e : Enemy)
  : World * Enemy :=
  let dx := p_x (e_target e) - p_x (e_pos e) in
  let dy := p_y (e_target e) - p_y (e_pos e) in
  let dist := distance dx dy in
  let moveDist := e_speed e * speedScale in
  if arrived dist moveDist then
    let w1 := set_cities (impactCities (e_pos e) (cities w)) w in
    let w2 := set_batteries (impactBatteries (e_pos e) (batteries w1)) w1 in
    (set_explosionsRef
       (explosionsRef w2 ++
        [mkExplosion (d_blastId d (List.length (explosionsRef w2))) (e_pos e)
                     0 2 36 (24 / 10 * speedScale) false
                     COLORS.ENEMY_MISSILE true])
       w2,
     mkEnemy (e_id e) (e_pos e) (e_startPos e) (e_target e) (e_speed e)
             (e_radius e) (e_color e) false)
  else
    (w,
     mkEnemy (e_id e)
             (mkPoint (p_x (e_pos e) + (dx / dist) * moveDist)
                      (p_y (e_pos e) + (dy / dist) * moveDist))
             (e_startPos e) (e_target e) (e_speed e) (e_radius e)
             (e_color e) (e_active e)).

Definition updateEnemy (d : Draws) (speedScale : R) (w : World) (e : Enemy)
  : World * Enemy :=
  if negb (e_active e) then (w, e) else
  let '(w1, e1) := moveEnemy d speedScale w e in
  fold_left collide (explosionsRef w1) (w1, e1).

(** *** Update explosions (lines 238-252) *)

Definition updateExplosion (exp : Explosion) : Explosion :=
  if negb (x_active exp) then exp else
  if negb (x_isShrinking exp) then
    let r := x_radius exp + x_growthRate exp in
    mkExplosion (x_id exp) (x_pos exp) (x_speed exp) r (x_maxRadius exp)
                (x_growthRate exp)
                (if Num.leb (x_maxRadius exp) r then true
                 else x_isShrinking exp)
                (x_color exp) (x_active exp)
  else
    let r := x_radius exp - x_growthRate exp * (5 / 10) in
    mkExplosion (x_id exp) (x_pos exp) (x_speed exp) r (x_maxRadius exp)
                (x_growthRate exp) (x_isShrinking exp) (x_color exp)
                (if Num.leb r 0 then false else x_active exp).

(** *** Cleanup (lines 254-257) *)

Definition cleanup (w : World) : World :=
  let w1 := set_missilesRef (filter m_active (missilesRef w)) w in
  let w2 := set_enemiesRef (filter e_active (enemiesRef w1)) w1 in
  set_explosionsRef (filter x_active (explosionsRef w2)) w2.

(** *** Check game over / win (lines 259-271) *)

Definition checkGameOver (bs : list Battery) (w : World) : World :=
  let activeBatteries := List.length (filter (fun b => negb (b_destroyed b)) bs) in
  if (WIN_SCORE <=? scoreRef w)%Z then
    set_gameState (set_status WON (gameState w)) w
  else if (activeBatteries =? 0)%nat && (List.length (enemiesRef w) =? 0)%nat
          && (List.length (explosionsRef w) =? 0)%nat then
    set_gameState (set_status LOST (gameState w)) w
  else w.

(** *** The frame *)

(** Lines 118-122: the frame delta, and the timestamp cell afterwards. *)
Definition deltaOf (time : R) (w : World) : R :=
  time - (if Num.eqb (lastTimeRef w) 0 then time else lastTimeRef w).

(** The three loops over the dynamic entities (lines 155-252). *)
Definition updateMissiles (d : Draws) (config : ModeConfig) (speedScale : R)
  (w : World) : World :=
  let '(w', ms) := forEach (updateMissile d config speedScale) w
                           (missilesRef w) in
  set_missilesRef ms w'.

Definition updateEnemies (d : Draws) (speedScale : R) (w : World) : World :=
  let '(w', es) := forEach (updateEnemy d speedScale) w (enemiesRef w) in
  set_enemiesRef es w'.

Definition updateExplosions (w : World) : World :=
  set_explosionsRef (map updateExplosion (explosionsRef w)) w.

(** Lines 131-252: spawn, then the missile, enemy and explosion loops. *)
Definition advance (d : Draws) (deltaTime : R) (w : World) : World :=
  let config := MODE_CONFIGS (gs_mode (gameState w)) in
  let speedScale := deltaTime / (1667 / 100) in
  updateExplosions
    (updateEnemies d speedScale
       (updateMissiles d config speedScale
          (spawnEnemies d config deltaTime (cities w) (batteries w) w))).

(** Everything after the [status !== 'PLAYING'] guard; the final check reads
    [batteries] from the render the frame closes over. *)
Definition simulate (d : Draws) (deltaTime : R) (w : World) : World :=
  checkGameOver (batteries w) (cleanup (advance d deltaTime w)).

Definition update (d : Draws) (time : R) (w : World) : World :=
  let deltaTime := deltaOf time w in
  let w0 := set_lastTimeRef time w in
  if negb (Status_eqb (gs_status (gameState w0)) PLAYING) then w0
  else simulate d deltaTime w0.

(** ** Reachable worlds *)

(** The worlds the component can be in: mounted, then any interleaving of
    session starts, pointer events and frames. *)
Inductive reachable : World -> Prop :=
| reach_mount : reachable initialWorld
| reach_start : forall mode w, reachable w -> reachable (startGame mode w)
| reach_click : forall r cv ev w,
    reachable w -> reachable (handleCanvasClick r cv ev w)
| reach_frame : forall d time w, reachable w -> reachable (update d time w).

(** A battery the launch handler may pick. *)
Definition eligible (b : Battery) : bool :=
  negb (b_destroyed b) && (0 <? b_missiles b)%Z.

(** The record written by [{ ...pb, missiles: pb.missiles - 1 }]. *)
Definition fired (b : Battery) : Battery :=
  mkBattery (b_id b) (b_pos b) (b_missiles b - 1) (b_maxMissiles b)
            (b_destroyed b).

(** What the creation sites and the lifecycle maintain for an explosion. *)
Definition blast_inv (exp : Explosion) : Prop :=
  0 <= x_growthRate exp /\
  (x_active exp = true ->
   0 <= x_radius exp <= x_maxRadius exp + x_growthRate exp /\
   (x_isShrinking exp = false -> x_radius exp < x_maxRadius exp)).

(** The interval as the specification words it, with an integer floor. *)
Definition specInterval (score : Z) : R :=
  Rmax 500 (2000 - IZR (score / 100) * 100).

(** The worlds reached when the frame driver supplies non-decreasing
    timestamps, so that no frame has a negative delta. *)
Inductive run : World -> Prop :=
| run_mount : run initialWorld
| run_start : forall mode w, run w -> run (startGame mode w)
| run_click : forall r cv ev w, run w -> run (handleCanvasClick r cv ev w)
| run_frame : forall d time w,
    run w -> 0 <= deltaOf time w -> run (update d time w).

(** A frame's effect on one ground target: it may be wrecked, nothing else. *)
Definition b_wear (b b' : Battery) : Prop :=
  b_id b' = b_id b /\ b_pos b' = b_pos b /\ b_missiles b' = b_missiles b /\
  b_maxMissiles b' = b_maxMissiles b /\
  (b_destroyed b = true -> b_destroyed b' = true).

Definition c_wear (c c' : City) : Prop :=
  c_id c' = c_id c /\ c_pos c' = c_pos c /\
  (c_destroyed c = true -> c_destroyed c' = true).

(** An explosion in its first phase. *)
Definition growing (exp : Explosion) : Prop :=
  x_active exp = true /\ x_isShrinking exp = false.

(** What the missile and enemy loops maintain relative to the ground
    targets [bs0], [cs0] the frame started with: targets only wear, and an
    impact always leaves a growing explosion behind. *)
Definition settled (bs0 : list Battery) (cs0 : list City) (w : World) : Prop :=
  Forall2 b_wear bs0 (batteries w) /\ Forall2 c_wear cs0 (cities w) /\
  ((batteries w = bs0 /\ cities w = cs0) \/ Exists growing (explosionsRef w)).

(** Inputs used to run the program on concrete cases. *)
Definition noDraws : Draws := mkDraws 0 0 0 0 0 (fun _ => 0).

Definition unitCanvas : Canvas := mkCanvas 800 600 0 0 800 600.

(** ** Tactics *)

Ltac break_if :=
  repeat match goal with
         | |- context[if ?c then _ else _] => destruct c eqn:?
         end.

(** What [batteries.forEach] of the launch handler has established after
    the batteries [seen]: nothing found among ineligible ones, or the
    nearest eligible one together with its distance. *)
Definition nearest_of (targetX : R) (seen : list Battery)
  (acc : option Battery * option R) : Prop :=
  match acc with
  | (None, None) => Forall (fun b => eligible b = false) seen
  | (Some b, Some minDist) =>
      In b seen /\ eligible b = true /\
      minDist = Rabs (p_x (b_pos b) - targetX) /\
      Forall (fun b' => eligible b' = true ->
                        minDist <= Rabs (p_x (b_pos b') - targetX)) seen
  | _ => False
  end.

(** The ammunition bound, with the ids of the fixed layout. *)
Definition stocked (w : World) : Prop :=
  map b_id (batteries w) = map b_id INITIAL_BATTERIES /\
  Forall (fun b => (0 <= b_missiles b <= b_maxMissiles b)%Z) (batteries w).

(** A session in which the first pointer event lands on battery b1. *)
Definition clickAtB1 : World :=
  handleCanvasClick 0 (Some unitCanvas) (mkPointer 100 560)
                    (startGame LOW initialWorld).

(** One enemy on its way to city c2, about to enter two overlapping player
    explosions; the previous frame was at 1000 ms. *)
Definition doubleBlast : World :=
  mkWorld (mkGameState 0 1 LOW PLAYING) INITIAL_BATTERIES INITIAL_CITIES []
    [ mkEnemy 0 (mkPoint 300 100) (mkPoint 300 (-20)) (mkPoint 300 570) 1 2
              COLORS.ENEMY_MISSILE true ]
    [ mkExplosion 0 (mkPoint 300 101) 0 50 96 3 false COLORS.EXPLOSION true;
      mkExplosion 0 (mkPoint 303 105) 0 50 96 3 false COLORS.EXPLOSION true ]
    1000 0 0.

(** The frame one reference interval (16.67 ms) after 1000 ms. *)
Definition nextTick : R := 1000 + 1667 / 100.

(** A quiet playfield after one kill (score 20), last frame at 1000 ms. *)
Definition scored20 : World :=
  mkWorld (mkGameState 20 1 LOW PLAYING) INITIAL_BATTERIES INITIAL_CITIES
          [] [] [] 1000 0 20.

Definition quarterDraws : Draws :=
  mkDraws 0 0 (1 / 4) (1 / 4) 0 (fun _ => 0).

(** Two enemies, 30 above city c1 and 38 above battery b1, each aimed at
    the target below it; the last frame was at 16.67 ms and the next one
    comes at 683.47 ms, forty reference intervals later. *)
Definition lateWorld : World :=
  mkWorld (mkGameState 0 1 LOW PLAYING) INITIAL_BATTERIES INITIAL_CITIES []
    [ mkEnemy 0 (mkPoint 200 540) (mkPoint 200 (-20)) (mkPoint 200 570) 1 2
              COLORS.ENEMY_MISSILE true;
      mkEnemy 0 (mkPoint 100 522) (mkPoint 100 (-20)) (mkPoint 100 560) 1 2
              COLORS.ENEMY_MISSILE true ]
    [] (1667 / 100) 0 0.

Definition lateTick : R := 68347 / 100.

(** ** The overlay buttons and the panel *)

(** The handler of "Play Again" on the WON overlay (line 618). *)
Definition playAgain (w : World) : World :=
  set_gameState (set_status START (gameState w)) w.

(** The handler of "Retry" on the LOST overlay (lines 638-643). *)
Definition retry (w : World) : World :=
  set_cities INITIAL_CITIES
    (set_batteries INITIAL_BATTERIES
       (set_gameState (set_status START (gameState w)) w)).

(** The width of a battery's ammunition bar, in percent (line 683). *)
Definition ammoGauge (b : Battery) : R :=
  IZR (b_missiles b) / IZR (b_maxMissiles b) * 100.

(** ** Sessions as sequences of callbacks *)

(** The callbacks that touch the simulation: an animation frame, a pointer
    event on the canvas, a mode button of the START overlay (line 586) and
    the buttons of the WON and LOST overlays. *)
Inductive Event :=
| Frame (d : Draws) (time : R)
| Click (idDraw : R) (canvas : option Canvas) (ev : Pointer)
| PressMode (mode : GameMode)
| PressPlayAgain
| PressRetry.

Definition step (ev : Event) (w : World) : World :=
  match ev with
  | Frame d time => update d time w
  | Click r cv p => handleCanvasClick r cv p w
  | PressMode mode => startGame mode w
  | PressPlayAgain => playAgain w
  | PressRetry => retry w
  end.

Definition play (evs : list Event) (w : World) : World :=
  fold_left (fun w' ev => step ev w') evs w.

(** Animation frames and pointer events on the canvas, as opposed to the
    overlay buttons. *)
Definition onCanvas (ev : Event) : bool :=
  match ev with
  | Frame _ _ | Click _ _ _ => true
  | _ => false
  end.

(** The missiles left in all batteries together. *)
Definition totalAmmo (bs : list Battery) : Z :=
  fold_right (fun b acc => (b_missiles b + acc)%Z) 0%Z bs.

(** Sharper than [nearest_of]: the pick is the first of the nearest
    eligible batteries, every eligible battery before it being strictly
    farther. *)
Definition first_nearest_of (targetX : R) (seen : list Battery)
  (acc : option Battery * option R) : Prop :=
  match acc with
  | (None, None) => Forall (fun b => eligible b = false) seen
  | (Some b, Some minDist) =>
      minDist = Rabs (p_x (b_pos b) - targetX) /\ eligible b = true /\
      exists l1 l2,
        seen = l1 ++ b :: l2 /\
        Forall (fun b' => eligible b' = true ->
                          minDist < Rabs (p_x (b_pos b') - targetX)) l1 /\
        Forall (fun b' => eligible b' = true ->
                          minDist <= Rabs (p_x (b_pos b') - targetX)) l2
  | _ => False
  end.

(** An explosion that can never score: not a player blast, or retired. *)
Definition harmless (exp : Explosion) : Prop :=
  x_color exp <> COLORS.EXPLOSION \/ x_active exp = false.

(** The panel's view of the batteries: the fixed capacities, a stock within
    them. *)
Definition gauged (w : World) : Prop :=
  stocked w /\
  map b_maxMissiles (batteries w) = map b_maxMissiles INITIAL_BATTERIES.

(** An enemy 3 above city c1, speed 4. *)
Definition enemyAbove3 : Enemy :=
  mkEnemy 0 (mkPoint 200 567) (mkPoint 200 (-20)) (mkPoint 200 570) 4 2
          COLORS.ENEMY_MISSILE true.

(** The explosion the first frame of [clickAtB1] creates: that frame has
    zero delta, hence a zero growth rate. *)
Definition stillBlast : Explosion :=
  mkExplosion 0
    (mkPoint ((100 - 0) * (800 / 800)) ((560 - 0) * (600 / 600)))
    0 (2 + 3 * (0 / (1667 / 100))) (96 * 1)
    (3 * (0 / (1667 / 100))) false COLORS.EXPLOSION true.

Definition halfDraws : Draws :=
  mkDraws (1 / 2) 0 (1 / 2) (1 / 2) (1 / 2) (fun _ => 0).

(** The seven positions of the fixed layout. *)
Definition layoutPoints : list Point :=
  map c_pos INITIAL_CITIES ++ map b_pos INITIAL_BATTERIES.

(** Ground targets stand where the layout puts them, and every enemy in
    flight is aimed at one of those places. *)
Definition aimed (w : World) : Prop :=
  map c_pos (cities w) = map c_pos INITIAL_CITIES /\
  map b_pos (batteries w) = map b_pos INITIAL_BATTERIES /\
  Forall (fun e => In (e_target e) layoutPoints) (enemiesRef w).

(** Nothing retired is kept between two callbacks. *)
Definition pruned (w : World) : Prop :=
  Forall (fun m => m_active m = true) (missilesRef w) /\
  Forall (fun e => e_active e = true) (enemiesRef w) /\
  Forall (fun exp => x_active exp = true) (explosionsRef w).

(** ** The frame, entity by entity *)

(** The arrival test of lines 163 and 191, for an entity at [pos] with
    target [target] and own speed [speed]. *)
Definition reaches (speedScale : R) (pos target : Point) (speed : R) : Prop :=
  let dx := p_x target - p_x pos in
  let dy := p_y target - p_y pos in
  let dist := sqrt (dx * dx + dy * dy) in
  let moveDist := speed * speedScale in
  dist <= moveDist \/ dist = 0.

(** The position lines 178-179 and 219-220 write. *)
Definition advanced (speedScale : R) (pos target : Point) (speed : R) : Point :=
  let dx := p_x target - p_x pos in
  let dy := p_y target - p_y pos in
  let dist := sqrt (dx * dx + dy * dy) in
  let moveDist := speed * speedScale in
  mkPoint (p_x pos + (dx / dist) * moveDist) (p_y pos + (dy / dist) * moveDist).

(** What one frame makes of a missile [m]. *)
Definition missileStep (speedScale : R) (m m' : Missile) : Prop :=
  m_id m' = m_id m /\ m_startPos m' = m_startPos m /\
  m_target m' = m_target m /\ m_speed m' = m_speed m /\
  (m_active m = false -> m' = m) /\
  (m_active m = true ->
   (reaches speedScale (m_pos m) (m_target m) (m_speed m) ->
    m_active m' = false /\ m_pos m' = m_pos m) /\
   (~ reaches speedScale (m_pos m) (m_target m) (m_speed m) ->
    m_active m' = true /\
    m_pos m' = advanced speedScale (m_pos m) (m_target m) (m_speed m)) /\
   (m_pos m = m_target m -> m_active m' = false /\ m_pos m' = m_pos m)).

(** What one frame makes of an enemy [e]; a moving enemy may still be
    deactivated by the collision pass. *)
Definition enemyStep (speedScale : R) (e e' : Enemy) : Prop :=
  e_id e' = e_id e /\ e_startPos e' = e_startPos e /\
  e_target e' = e_target e /\ e_speed e' = e_speed e /\
  (e_active e = false -> e' = e) /\
  (e_active e = true ->
   (reaches speedScale (e_pos e) (e_target e) (e_speed e) ->
    e_active e' = false /\ e_pos e' = e_pos e) /\
   (~ reaches speedScale (e_pos e) (e_target e) (e_speed e) ->
    e_pos e' = advanced speedScale (e_pos e) (e_target e) (e_speed e)) /\
   (e_pos e = e_target e -> e_active e' = false /\ e_pos e' = e_pos e)).

(** The enemy round of lines 185-191 reaches the impact branch. *)
Definition arrivesNow (speedScale : R) (e : Enemy) : bool :=
  e_active e &&
  arrived (distance (p_x (e_target e) - p_x (e_pos e))
                    (p_y (e_target e) - p_y (e_pos e)))
          (e_speed e * speedScale).

(** The points of impact of one frame, in the order of the enemy loop. *)
Definition impactPoints (speedScale : R) (es : list Enemy) : list Point :=
  map e_pos (filter (arrivesNow speedScale) es).

(** The number of collision tests (lines 225-229) that succeed while the
    enemy loop runs over [es] from the world [w]: for each active enemy,
    after its move, the explosions then on the field that hit it. *)
Fixpoint collisionHits (d : Draws) (speedScale : R) (w : World)
  (es : list Enemy) : nat :=
  match es with
  | [] => 0
  | e :: es' =>
      ((if e_active e
        then List.length
               (filter (blastHits (snd (moveEnemy d speedScale w e)))
                       (explosionsRef (fst (moveEnemy d speedScale w e))))
        else 0)
       + collisionHits d speedScale (fst (updateEnemy d speedScale w e)) es')%nat
  end.

(** A session whose first frame comes before the first pointer event: the
    frames are at 16.67 ms and 33.34 ms, the pointer lands on battery b1. *)
Definition primed : World :=
  update noDraws (1667 / 100) (startGame LOW initialWorld).

Definition primedClick : World :=
  handleCanvasClick 0 (Some unitCanvas) (mkPointer 100 560) primed.

Definition secondFrame : World := update noDraws (3334 / 100) primedClick.

(** The explosion of the missile that was launched onto its own battery. *)
Definition growingBlast : Explosion :=
  mkExplosion 0
    (mkPoint ((100 - 0) * (800 / 800)) ((560 - 0) * (600 / 600)))
    0 (2 + 3 * 1) (96 * 1) (3 * 1) false COLORS.EXPLOSION true.

(** An enemy four units above city c1, with a step of five per reference
    interval; the last frame was at 16.67 ms. *)
Definition strikeWorld : World :=
  mkWorld (mkGameState 0 1 LOW PLAYING) INITIAL_BATTERIES INITIAL_CITIES []
    [ mkEnemy 0 (mkPoint 200 566) (mkPoint 200 (-20)) (mkPoint 200 570) 5 2
              COLORS.ENEMY_MISSILE true ]
    [] (1667 / 100) 0 0.

(** * Properties *)

(** ** Comparisons *)

Lemma leb_true a b : a <= b -> Num.leb a b = true.
Proof. unfold Num.leb; destruct (Rle_dec a b); tauto. Qed.

Lemma leb_false a b : ~ a <= b -> Num.leb a b = false.
Proof. unfold Num.leb; destruct (Rle_dec a b); tauto. Qed.

Lemma ltb_true a b : a < b -> Num.ltb a b = true.
Proof. unfold Num.ltb; destruct (Rlt_dec a b); tauto. Qed.

Lemma ltb_false a b : ~ a < b -> Num.ltb a b = false.
Proof. unfold Num.ltb; destruct (Rlt_dec a b); tauto. Qed.

Lemma eqb_true a b : a = b -> Num.eqb a b = true.
Proof. unfold Num.eqb; destruct (Req_dec_T a b); tauto. Qed.

Lemma eqb_false a b : a <> b -> Num.eqb a b = false.
Proof. unfold Num.eqb; destruct (Req_dec_T a b); tauto. Qed.

Lemma leb_iff a b : Num.leb a b = true <-> a <= b.
Proof. unfold Num.leb; destruct (Rle_dec a b); split; auto; discriminate. Qed.

Lemma ltb_iff a b : Num.ltb a b = true <-> a < b.
Proof. unfold Num.ltb; destruct (Rlt_dec a b); split; auto; discriminate. Qed.

Lemma eqb_iff a b : Num.eqb a b = true <-> a = b.
Proof. unfold Num.eqb; destruct (Req_dec_T a b); split; auto; discriminate. Qed.

Lemma arrived_iff dist moveDist :
  arrived dist moveDist = true <-> dist <= moveDist \/ dist = 0.
Proof.
  unfold arrived. rewrite orb_true_iff, leb_iff, eqb_iff. tauto.
Qed.

Lemma near_iff k p q :
  near k p q = true <->
  Rabs (p_x p - p_x q) < k /\ Rabs (p_y p - p_y q) < k.
Proof. unfold near. rewrite andb_true_iff, !ltb_iff. tauto. Qed.

(** ** Session start *)

(** C7: whatever the prior world, [startGame mode] yields one and the same
    fresh world: every battery full and standing, every city standing,
    score 0, no missile, enemy or explosion, spawn accumulator 0, status
    PLAYING in the requested mode; so starting twice equals starting once. *)
Theorem startGame_fresh : forall mode w,
  let w' := startGame mode w in
  Forall (fun b => b_missiles b = b_maxMissiles b /\ b_destroyed b = false)
         (batteries w') /\
  map b_id (batteries w') = map b_id INITIAL_BATTERIES /\
  map b_pos (batteries w') = map b_pos INITIAL_BATTERIES /\
  map b_maxMissiles (batteries w') = map b_maxMissiles INITIAL_BATTERIES /\
  Forall (fun c => c_destroyed c = false) (cities w') /\
  map c_id (cities w') = map c_id INITIAL_CITIES /\
  map c_pos (cities w') = map c_pos INITIAL_CITIES /\
  scoreRef w' = 0%Z /\ gs_score (gameState w') = 0%Z /\
  missilesRef w' = [] /\ enemiesRef w' = [] /\ explosionsRef w' = [] /\
  spawnTimerRef w' = 0 /\
  gs_status (gameState w') = PLAYING /\ gs_mode (gameState w') = mode /\
  (forall w2, startGame mode w2 = startGame mode w) /\
  startGame mode (startGame mode w) = startGame mode w.
Proof.
  intros mode w; cbv zeta.
  repeat split; try reflexivity.
  all: unfold startGame, INITIAL_BATTERIES, INITIAL_CITIES; simpl.
  all: repeat constructor.
Qed.

(** ** Explosion lifecycle *)

Lemma updateExplosion_growing exp :
  x_active exp = true -> x_isShrinking exp = false ->
  x_radius (updateExplosion exp) = x_radius exp + x_growthRate exp /\
  (x_isShrinking (updateExplosion exp) = true <->
   x_radius (updateExplosion exp) >= x_maxRadius exp) /\
  x_active (updateExplosion exp) = true.
Proof.
  intros Ha Hs. unfold updateExplosion. rewrite Ha, Hs. simpl.
  repeat split; auto.
  - destruct (Num.leb _ _) eqn:E; [intros _|discriminate].
    apply leb_iff in E. lra.
  - intros H. rewrite leb_true; [reflexivity | lra].
Qed.

Lemma updateExplosion_shrinking exp :
  x_active exp = true -> x_isShrinking exp = true ->
  x_radius (updateExplosion exp) =
    x_radius exp - x_growthRate exp * (5 / 10) /\
  x_isShrinking (updateExplosion exp) = true /\
  (x_active (updateExplosion exp) = false <->
   x_radius (updateExplosion exp) <= 0).
Proof.
  intros Ha Hs. unfold updateExplosion. rewrite Ha, Hs. simpl.
  repeat split; auto.
  - destruct (Num.leb _ _) eqn:E; [intros _|discriminate].
    now apply leb_iff in E.
  - intros H. now rewrite leb_true.
Qed.

Lemma updateExplosion_retired exp :
  x_active exp = false -> updateExplosion exp = exp.
Proof. intros Ha. unfold updateExplosion. now rewrite Ha. Qed.

Lemma updateExplosion_inv exp : blast_inv exp -> blast_inv (updateExplosion exp).
Proof.
  intros [Hg H]. destruct (x_active exp) eqn:Ha.
  2:{ rewrite updateExplosion_retired by assumption. split; auto.
      rewrite Ha; discriminate. }
  destruct (H eq_refl) as [[Hr0 Hr1] Hlt]. clear H.
  unfold blast_inv, updateExplosion. rewrite Ha.
  destruct (x_isShrinking exp) eqn:Hs; simpl.
  - split; [assumption|].
    destruct (Num.leb _ 0) eqn:E; [discriminate|].
    intros _. rewrite <- not_true_iff_false, leb_iff in E.
    split; [lra | discriminate].
  - specialize (Hlt eq_refl). split; [assumption|]. intros _.
    split; [lra|].
    destruct (Num.leb _ _) eqn:E; [discriminate|].
    intros _. rewrite <- not_true_iff_false, leb_iff in E. lra.
Qed.

(** ** Loops *)

Lemma forEach_inv {S A : Type} (P : S -> Prop) (body : S -> A -> S * A) :
  (forall s a, P s -> P (fst (body s a))) ->
  forall l s, P s -> P (fst (forEach body s l)).
Proof.
  intros Hb l. induction l as [|a l IH]; intros s Hs; simpl; [assumption|].
  specialize (Hb s a Hs). destruct (body s a) as [s1 a1]. simpl in Hb.
  specialize (IH s1 Hb). destruct (forEach body s1 l) as [s2 l2].
  exact IH.
Qed.

Lemma fold_collide_inv (P : World -> Prop) :
  (forall w, P w -> P (scoreHit w)) ->
  forall xs w e, P w -> P (fst (fold_left collide xs (w, e))).
Proof.
  intros HP xs. induction xs as [|exp xs IH]; intros w e Hw; simpl;
    [assumption|].
  destruct (String.eqb _ _ && x_active exp); [|now apply IH].
  destruct (Num.ltb _ _); [|now apply IH].
  apply IH. now apply HP.
Qed.

Lemma powerMult_ge_1 mode : 1 <= powerMult (MODE_CONFIGS mode).
Proof. destruct mode; simpl; lra. Qed.

(** ** The explosion invariant along a frame *)

Lemma updateMissile_blasts d config speedScale w m :
  1 <= powerMult config -> 0 <= speedScale ->
  Forall blast_inv (explosionsRef w) ->
  Forall blast_inv (explosionsRef (fst (updateMissile d config speedScale w m))).
Proof.
  intros Hp Hs Hw. unfold updateMissile.
  destruct (negb (m_active m)); [assumption|].
  destruct (arrived _ _); simpl; [|assumption].
  apply Forall_app; split; [assumption|]. constructor; [|constructor].
  unfold blast_inv; simpl. split; [lra|]. intros _. split; [lra|]. intros _.
  lra.
Qed.

Lemma moveEnemy_blasts d speedScale w e :
  0 <= speedScale ->
  Forall blast_inv (explosionsRef w) ->
  Forall blast_inv (explosionsRef (fst (moveEnemy d speedScale w e))).
Proof.
  intros Hs Hw. unfold moveEnemy.
  destruct (arrived _ _); simpl; [|assumption].
  apply Forall_app; split; [assumption|]. constructor; [|constructor].
  unfold blast_inv; simpl. split; [lra|]. intros _. split; [lra|]. intros _.
  lra.
Qed.

Lemma updateEnemy_blasts d speedScale w e :
  0 <= speedScale ->
  Forall blast_inv (explosionsRef w) ->
  Forall blast_inv (explosionsRef (fst (updateEnemy d speedScale w e))).
Proof.
  intros Hs Hw. unfold updateEnemy.
  destruct (negb (e_active e)); [assumption|].
  pose proof (moveEnemy_blasts d speedScale w e Hs Hw) as H.
  destruct (moveEnemy d speedScale w e) as [w1 e1]. simpl in H.
  apply (fold_collide_inv (fun w => Forall blast_inv (explosionsRef w)));
    auto.
Qed.

Lemma spawnEnemies_explosions d config dt cs bs w :
  explosionsRef (spawnEnemies d config dt cs bs w) = explosionsRef w.
Proof.
  unfold spawnEnemies.
  repeat match goal with |- context[if ?c then _ else _] => destruct c end;
    try reflexivity.
  destruct (at_index _ _); reflexivity.
Qed.

Lemma checkGameOver_explosions bs w :
  explosionsRef (checkGameOver bs w) = explosionsRef w.
Proof.
  unfold checkGameOver.
  repeat match goal with |- context[if ?c then _ else _] => destruct c end;
    reflexivity.
Qed.

Lemma advance_blasts d dt w :
  0 <= dt -> Forall blast_inv (explosionsRef w) ->
  Forall blast_inv (explosionsRef (advance d dt w)).
Proof.
  intros Hdt Hw. unfold advance, updateExplosions, updateEnemies, updateMissiles.
  assert (Hs : 0 <= dt / (1667 / 100)) by (apply Rmult_le_pos; lra).
  set (config := MODE_CONFIGS _).
  set (ss := dt / (1667 / 100)) in *.
  set (w1 := spawnEnemies _ _ _ _ _ _).
  assert (H1 : Forall blast_inv (explosionsRef w1))
    by (unfold w1; now rewrite spawnEnemies_explosions).
  pose proof (forEach_inv (fun w => Forall blast_inv (explosionsRef w))
                (updateMissile d config ss)
                (fun s a => updateMissile_blasts d config ss s a
                              (powerMult_ge_1 _) Hs)
                (missilesRef w1) w1 H1) as H2.
  destruct (forEach (updateMissile d config ss) w1 (missilesRef w1))
    as [w2 ms]. simpl in H2.
  set (w3 := set_missilesRef ms w2).
  assert (H3 : Forall blast_inv (explosionsRef w3)) by exact H2.
  pose proof (forEach_inv (fun w => Forall blast_inv (explosionsRef w))
                (updateEnemy d ss)
                (fun s a => updateEnemy_blasts d ss s a Hs)
                (enemiesRef w3) w3 H3) as H4.
  destruct (forEach (updateEnemy d ss) w3 (enemiesRef w3)) as [w4 es].
  simpl in H4. simpl.
  rewrite Forall_forall. intros exp Hin.
  apply in_map_iff in Hin. destruct Hin as [exp0 [<- Hin0]].
  apply updateExplosion_inv. rewrite Forall_forall in H4. now apply H4.
Qed.

Lemma simulate_blasts d dt w :
  0 <= dt -> Forall blast_inv (explosionsRef w) ->
  Forall (fun exp => blast_inv exp /\ x_active exp = true)
         (explosionsRef (simulate d dt w)).
Proof.
  intros Hdt Hw. unfold simulate. rewrite checkGameOver_explosions. simpl.
  pose proof (advance_blasts d dt w Hdt Hw) as H.
  rewrite Forall_forall in *. intros exp Hin.
  apply filter_In in Hin. destruct Hin as [Hin Hact]. auto.
Qed.

(** ** What a frame leaves alone *)

Lemma spawnEnemies_cells d config dt cs bs w :
  let w' := spawnEnemies d config dt cs bs w in
  gameState w' = gameState w /\ batteries w' = batteries w /\
  cities w' = cities w /\ scoreRef w' = scoreRef w /\
  missilesRef w' = missilesRef w /\ lastTimeRef w' = lastTimeRef w.
Proof.
  unfold spawnEnemies. break_if; simpl; try tauto.
  destruct (at_index _ _); simpl; tauto.
Qed.

Lemma updateMissile_cells d config ss w m :
  let w' := fst (updateMissile d config ss w m) in
  gameState w' = gameState w /\ batteries w' = batteries w /\
  cities w' = cities w /\ scoreRef w' = scoreRef w /\
  enemiesRef w' = enemiesRef w /\
  (explosionsRef w' = explosionsRef w \/
   exists exp, explosionsRef w' = explosionsRef w ++ [exp] /\
               x_active exp = true /\ x_isShrinking exp = false /\
               x_color exp = COLORS.EXPLOSION).
Proof.
  unfold updateMissile. break_if; simpl; repeat split; auto.
  right. eexists. repeat split.
Qed.

Lemma b_wear_refl bs : Forall2 b_wear bs bs.
Proof. induction bs; constructor; auto. unfold b_wear; tauto. Qed.

Lemma c_wear_refl cs : Forall2 c_wear cs cs.
Proof. induction cs; constructor; auto. unfold c_wear; tauto. Qed.

Lemma impactBatteries_wear at_ bs0 bs :
  Forall2 b_wear bs0 bs -> Forall2 b_wear bs0 (impactBatteries at_ bs).
Proof.
  induction 1 as [|b0 b l0 l H _ IH]; simpl; constructor; auto.
  unfold b_wear in *. destruct (near 35 _ _); simpl; tauto.
Qed.

Lemma impactCities_wear at_ cs0 cs :
  Forall2 c_wear cs0 cs -> Forall2 c_wear cs0 (impactCities at_ cs).
Proof.
  induction 1 as [|c0 c l0 l H _ IH]; simpl; constructor; auto.
  unfold c_wear in *. destruct (near 25 _ _); simpl; tauto.
Qed.

Lemma moveEnemy_settled d ss bs0 cs0 w e :
  settled bs0 cs0 w -> settled bs0 cs0 (fst (moveEnemy d ss w e)).
Proof.
  intros (Hb & Hc & H). unfold moveEnemy. break_if; simpl; [|now repeat split].
  repeat split.
  - now apply impactBatteries_wear.
  - now apply impactCities_wear.
  - right. apply Exists_app. right. constructor. now split.
Qed.

Lemma updateEnemy_settled d ss bs0 cs0 w e :
  settled bs0 cs0 w -> settled bs0 cs0 (fst (updateEnemy d ss w e)).
Proof.
  intros H. unfold updateEnemy. destruct (negb (e_active e)); [assumption|].
  pose proof (moveEnemy_settled d ss bs0 cs0 w e H) as H1.
  destruct (moveEnemy d ss w e) as [w1 e1]. simpl in H1.
  now apply (fold_collide_inv (settled bs0 cs0)).
Qed.

Lemma updateMissile_settled d config ss bs0 cs0 w m :
  settled bs0 cs0 w -> settled bs0 cs0 (fst (updateMissile d config ss w m)).
Proof.
  intros (Hb & Hc & H).
  destruct (updateMissile_cells d config ss w m)
    as (_ & Eb & Ec & _ & _ & Hx).
  unfold settled. rewrite Eb, Ec. repeat split; auto.
  destruct H as [H|H]; [now left|right].
  destruct Hx as [->|(exp & -> & _)]; [assumption|].
  apply Exists_app. now left.
Qed.

Lemma updateExplosion_growing_active exp :
  growing exp -> x_active (updateExplosion exp) = true.
Proof. intros [Ha Hs]. now apply updateExplosion_growing. Qed.

(** Whatever the spawn block establishes and every loop round and cell
    write preserves holds of the world the explosion loop starts from. *)
Lemma advance_inv (P : World -> Prop) d dt w :
  P (spawnEnemies d (MODE_CONFIGS (gs_mode (gameState w))) dt
                  (cities w) (batteries w) w) ->
  (forall w' m, P w' ->
     P (fst (updateMissile d (MODE_CONFIGS (gs_mode (gameState w)))
                           (dt / (1667 / 100)) w' m))) ->
  (forall w' e, P w' -> P (fst (updateEnemy d (dt / (1667 / 100)) w' e))) ->
  (forall w' ms, P w' -> P (set_missilesRef ms w')) ->
  (forall w' es, P w' -> P (set_enemiesRef es w')) ->
  exists w5,
    advance d dt w = set_explosionsRef (map updateExplosion (explosionsRef w5)) w5
    /\ P w5.
Proof.
  intros H1 Hm He Hsm Hse.
  unfold advance, updateExplosions, updateEnemies, updateMissiles.
  set (config := MODE_CONFIGS _) in *. set (ss := dt / (1667 / 100)) in *.
  set (w1 := spawnEnemies _ _ _ _ _ _) in *.
  pose proof (forEach_inv P (updateMissile d config ss) Hm (missilesRef w1)
                w1 H1) as H2.
  destruct (forEach (updateMissile d config ss) w1 (missilesRef w1))
    as [w2 ms]. simpl in H2.
  pose proof (forEach_inv P (updateEnemy d ss) He
                (enemiesRef (set_missilesRef ms w2)) (set_missilesRef ms w2)
                (Hsm _ _ H2)) as H4.
  destruct (forEach (updateEnemy d ss) (set_missilesRef ms w2)
                    (enemiesRef (set_missilesRef ms w2))) as [w4 es].
  simpl in H4. eexists. split; [reflexivity|]. now apply Hse.
Qed.

Lemma advance_settled d dt w :
  exists w5,
    advance d dt w = set_explosionsRef (map updateExplosion (explosionsRef w5)) w5
    /\ settled (batteries w) (cities w) w5
    /\ gs_status (gameState w5) = gs_status (gameState w)
    /\ gs_mode (gameState w5) = gs_mode (gameState w).
Proof.
  apply (advance_inv
           (fun w' => settled (batteries w) (cities w) w' /\
                      gs_status (gameState w') = gs_status (gameState w) /\
                      gs_mode (gameState w') = gs_mode (gameState w))).
  - destruct (spawnEnemies_cells d (MODE_CONFIGS (gs_mode (gameState w))) dt
                (cities w) (batteries w) w) as (Eg & Eb & Ec & _).
    unfold settled.
    rewrite Eg, Eb, Ec, spawnEnemies_explosions. repeat split; auto.
    + apply b_wear_refl.
    + apply c_wear_refl.
  - intros w' m (Hs & Hst & Hmo). split.
    + now apply updateMissile_settled.
    + destruct (updateMissile_cells d (MODE_CONFIGS (gs_mode (gameState w)))
                  (dt / (1667 / 100)) w' m) as (-> & _). now split.
  - intros w' e (Hs & Hst & Hmo). split.
    + now apply updateEnemy_settled.
    + unfold updateEnemy. destruct (negb (e_active e)); [now split|].
      assert (Hg : gameState (fst (moveEnemy d (dt / (1667 / 100)) w' e))
                   = gameState w')
        by (unfold moveEnemy; break_if; reflexivity).
      destruct (moveEnemy d (dt / (1667 / 100)) w' e) as [w1 e1].
      simpl in Hg.
      apply (fold_collide_inv
               (fun w1 => gs_status (gameState w1) = gs_status (gameState w)
                          /\ gs_mode (gameState w1) = gs_mode (gameState w))).
      * intros w2 H2. exact H2.
      * now rewrite Hg.
  - intros w' ms H. exact H.
  - intros w' es H. exact H.
Qed.

(** ** Win and loss *)

Lemma no_active_battery bs :
  (List.length (filter (fun b => negb (b_destroyed b)) bs) =? 0)%nat = true <->
  Forall (fun b => b_destroyed b = true) bs.
Proof.
  rewrite Nat.eqb_eq. induction bs as [|b bs IH]; simpl.
  - split; auto.
  - destruct (b_destroyed b) eqn:E; simpl.
    + rewrite IH. split; intros H; [now constructor | now inversion H].
    + split; [discriminate|]. intros H. inversion H. congruence.
Qed.

Lemma length_0_nil {A : Type} (l : list A) :
  (List.length l =? 0)%nat = true <-> l = [].
Proof. destruct l; simpl; split; auto; discriminate. Qed.

Lemma checkGameOver_cells bs w :
  let w' := checkGameOver bs w in
  scoreRef w' = scoreRef w /\ batteries w' = batteries w /\
  cities w' = cities w /\ missilesRef w' = missilesRef w /\
  enemiesRef w' = enemiesRef w /\ explosionsRef w' = explosionsRef w /\
  spawnTimerRef w' = spawnTimerRef w /\ lastTimeRef w' = lastTimeRef w /\
  gs_score (gameState w') = gs_score (gameState w) /\
  gs_mode (gameState w') = gs_mode (gameState w).
Proof. unfold checkGameOver. break_if; simpl; tauto. Qed.

Lemma checkGameOver_status bs w :
  gs_status (gameState w) = PLAYING ->
  let w' := checkGameOver bs w in
  (gs_status (gameState w') = WON <-> (WIN_SCORE <= scoreRef w)%Z) /\
  (gs_status (gameState w') = LOST <->
   (scoreRef w < WIN_SCORE)%Z /\ Forall (fun b => b_destroyed b = true) bs /\
   enemiesRef w = [] /\ explosionsRef w = []).
Proof.
  intros Hp. unfold checkGameOver.
  destruct (WIN_SCORE <=? scoreRef w)%Z eqn:Ew; simpl.
  - apply Z.leb_le in Ew. split; [tauto|]. split; [discriminate|lia].
  - apply Z.leb_gt in Ew.
    destruct (_ && _ && _) eqn:El; simpl.
    + rewrite !andb_true_iff, no_active_battery, !length_0_nil in El.
      split; [split; [discriminate|lia]|]. tauto.
    + rewrite Hp. split; [split; [discriminate|lia]|].
      split; [discriminate|]. intros (_ & Hb & He & Hx).
      rewrite <- no_active_battery, <- (length_0_nil (enemiesRef w)),
        <- (length_0_nil (explosionsRef w)) in *.
      rewrite Hb, He, Hx in El. discriminate.
Qed.

Lemma growing_survives xs :
  Exists growing xs -> filter x_active (map updateExplosion xs) <> [].
Proof.
  induction 1 as [exp xs H|exp xs _ IH]; simpl.
  - now rewrite (updateExplosion_growing_active exp H).
  - destruct (x_active (updateExplosion exp)); [discriminate|assumption].
Qed.

(** The frame of a PLAYING world, cut at the point the final check runs. *)
Lemma update_playing d time w :
  gs_status (gameState w) = PLAYING ->
  exists wc,
    update d time w = checkGameOver (batteries w) wc /\
    gs_status (gameState wc) = PLAYING /\
    Forall (fun m => m_active m = true) (missilesRef wc) /\
    Forall (fun e => e_active e = true) (enemiesRef wc) /\
    Forall (fun exp => x_active exp = true) (explosionsRef wc) /\
    Forall2 b_wear (batteries w) (batteries wc) /\
    Forall2 c_wear (cities w) (cities wc) /\
    (explosionsRef wc = [] ->
     batteries wc = batteries w /\ cities wc = cities w).
Proof.
  intros Hp. unfold update. simpl gameState. rewrite Hp. simpl.
  unfold simulate.
  destruct (advance_settled d (deltaOf time w) (set_lastTimeRef time w))
    as (w5 & Ea & (Hb & Hc & Hs) & Hst & _).
  simpl in Hb, Hc, Hs, Hst.
  exists (cleanup (advance d (deltaOf time w) (set_lastTimeRef time w))).
  split; [reflexivity|]. rewrite Ea. simpl.
  repeat split; auto.
  - congruence.
  - apply Forall_forall. intros m Hm. now apply filter_In in Hm.
  - apply Forall_forall. intros e He. now apply filter_In in He.
  - apply Forall_forall. intros x Hx. now apply filter_In in Hx.
  - destruct Hs as [[Hs _]|Hs]; [assumption|].
    exfalso. exact (growing_survives _ Hs H).
  - destruct Hs as [[_ Hs]|Hs]; [assumption|].
    exfalso. exact (growing_survives _ Hs H).
Qed.

(** C4: at the end of a frame that started in PLAYING, with every loop run
    and the inactive entities pruned, the status is WON exactly when the
    score has reached [WIN_SCORE] (1000); it is LOST exactly when the score
    is below it and every battery is destroyed, no enemy is left and no
    explosion is left; so WON wins when both hold, and a remaining explosion
    keeps the status at PLAYING. *)
Theorem win_loss_check : forall d time w,
  gs_status (gameState w) = PLAYING ->
  let w' := update d time w in
  let lossCondition :=
    Forall (fun b => b_destroyed b = true) (batteries w') /\
    enemiesRef w' = [] /\ explosionsRef w' = [] in
  Forall (fun e => e_active e = true) (enemiesRef w') /\
  Forall (fun exp => x_active exp = true) (explosionsRef w') /\
  (gs_status (gameState w') = WON <-> (WIN_SCORE <= scoreRef w')%Z) /\
  (gs_status (gameState w') = LOST <->
   (scoreRef w' < WIN_SCORE)%Z /\ lossCondition) /\
  (gs_status (gameState w') = PLAYING <->
   (scoreRef w' < WIN_SCORE)%Z /\ ~ lossCondition) /\
  ((WIN_SCORE <= scoreRef w')%Z -> lossCondition ->
   gs_status (gameState w') = WON) /\
  (explosionsRef w' <> [] -> (scoreRef w' < WIN_SCORE)%Z ->
   gs_status (gameState w') = PLAYING).
Proof.
  intros d time w Hp w' loss.
  destruct (update_playing d time w Hp)
    as (wc & Eu & Hpc & _ & Hae & Hax & _ & _ & Hsame).
  destruct (checkGameOver_cells (batteries w) wc)
    as (Es & Eb & _ & _ & Ee & Ex & _).
  destruct (checkGameOver_status (batteries w) wc Hpc) as (Hwon & Hlost).
  fold w' in Eu. rewrite <- Eu in Es, Eb, Ee, Ex, Hwon, Hlost.
  rewrite <- Es in Hwon, Hlost. rewrite <- Ee, <- Ex in Hlost.
  assert (Hl : gs_status (gameState w') = LOST <->
               (scoreRef w' < WIN_SCORE)%Z /\ loss).
  { rewrite Hlost. unfold loss. split.
    - intros (Hs & Hb & He & Hxn). repeat split; auto.
      rewrite Eb. rewrite Ex in Hxn. now destruct (Hsame Hxn) as [-> _].
    - intros (Hs & Hb & He & Hxn). repeat split; auto.
      rewrite Eb in Hb. rewrite Ex in Hxn.
      now destruct (Hsame Hxn) as [<- _]. }
  assert (Hns : gs_status (gameState w') <> START).
  { rewrite Eu. unfold checkGameOver.
    break_if; simpl; rewrite ?Hpc; discriminate. }
  rewrite Ee, Ex.
  split; [assumption|]. split; [assumption|].
  split; [assumption|]. split; [assumption|].
  rewrite <- Ex. clear Hlost.
  assert (Hcases : gs_status (gameState w') = WON \/
                   gs_status (gameState w') = LOST \/
                   gs_status (gameState w') = PLAYING)
    by (destruct (gs_status (gameState w')); auto; now elim Hns).
  split; [split|split].
  - intros E.
    assert (Hlt : (scoreRef w' < WIN_SCORE)%Z).
    { destruct (Z_lt_le_dec (scoreRef w') WIN_SCORE) as [|G]; [assumption|].
      apply Hwon in G. congruence. }
    split; [assumption|]. intros L.
    assert (X : gs_status (gameState w') = LOST) by (apply Hl; now split).
    congruence.
  - intros [Hlt Hnl]. destruct Hcases as [E|[E|E]]; [| |assumption].
    + apply Hwon in E. lia.
    + apply Hl in E. tauto.
  - intros Hge _. now apply Hwon.
  - intros Hx Hlt. destruct Hcases as [E|[E|E]]; [| |assumption].
    + apply Hwon in E. lia.
    + apply Hl in E. destruct E as (_ & _ & _ & E). congruence.
Qed.

(** ** Ground impact *)

Lemma Forall2_map_self {A : Type} (Q : A -> A -> Prop) (f : A -> A) l :
  (forall a, Q a (f a)) -> Forall2 Q l (map f l).
Proof. intros H. induction l; simpl; constructor; auto. Qed.

Lemma Forall2_weaken {A B : Type} (Q Q' : A -> B -> Prop) l l' :
  (forall a b, Q a b -> Q' a b) -> Forall2 Q l l' -> Forall2 Q' l l'.
Proof. intros H. induction 1; constructor; auto. Qed.

Lemma update_wear d time w :
  Forall2 b_wear (batteries w) (batteries (update d time w)) /\
  Forall2 c_wear (cities w) (cities (update d time w)).
Proof.
  destruct (gs_status (gameState w)) eqn:Est.
  2:{ destruct (update_playing d time w Est)
        as (wc & -> & _ & _ & _ & _ & Hb & Hc & _).
      destruct (checkGameOver_cells (batteries w) wc) as (_ & -> & -> & _).
      now split. }
  all: unfold update; simpl gameState; rewrite Est; simpl;
    split; [apply b_wear_refl | apply c_wear_refl].
Qed.

Lemma Forall2_refl {A : Type} (Q : A -> A -> Prop) l :
  (forall a, Q a a) -> Forall2 Q l l.
Proof. intros H. induction l; constructor; auto. Qed.

Lemma click_wear r cv ev w :
  Forall2 (fun b b' => b_id b' = b_id b /\ b_pos b' = b_pos b /\
                       b_maxMissiles b' = b_maxMissiles b /\
                       b_destroyed b' = b_destroyed b)
          (batteries w) (batteries (handleCanvasClick r cv ev w)) /\
  cities (handleCanvasClick r cv ev w) = cities w.
Proof.
  unfold handleCanvasClick.
  destruct (negb _); [split; [apply Forall2_refl; tauto | reflexivity]|].
  destruct cv as [cv|]; [|split; [apply Forall2_refl; tauto | reflexivity]].
  unfold launch. destruct (bestBattery _ _) as [b|]; simpl.
  - split; [|reflexivity]. apply Forall2_map_self.
    intros a. destruct (String.eqb _ _); simpl; tauto.
  - split; [apply Forall2_refl; tauto | reflexivity].
Qed.

(** ** The collision pass of one enemy *)

Lemma collide_hit w e exp :
  blastHits e exp = true ->
  collide (w, e) exp =
  (scoreHit w,
   mkEnemy (e_id e) (e_pos e) (e_startPos e) (e_target e) (e_speed e)
           (e_radius e) (e_color e) false).
Proof.
  unfold blastHits, collide. rewrite andb_true_iff. intros [-> ->].
  reflexivity.
Qed.

Lemma collide_miss w e exp :
  blastHits e exp = false -> collide (w, e) exp = (w, e).
Proof.
  unfold blastHits, collide. destruct (_ && x_active exp); simpl; [|reflexivity].
  now intros ->.
Qed.

Lemma fold_collide_spec xs : forall w e,
  let r := fold_left collide xs (w, e) in
  let n := List.length (filter (blastHits e) xs) in
  scoreRef (fst r) = (scoreRef w + 20 * Z.of_nat n)%Z /\
  e_pos (snd r) = e_pos e /\ e_target (snd r) = e_target e /\
  e_speed (snd r) = e_speed e /\
  e_active (snd r) = (if (n =? 0)%nat then e_active e else false).
Proof.
  induction xs as [|exp xs IH]; intros w e; cbv zeta.
  - simpl. repeat split; try reflexivity. lia.
  - cbn [fold_left filter]. destruct (blastHits e exp) eqn:E.
    + rewrite collide_hit by assumption.
      specialize (IH (scoreHit w)
                     (mkEnemy (e_id e) (e_pos e) (e_startPos e) (e_target e)
                              (e_speed e) (e_radius e) (e_color e) false)).
      cbv zeta in IH. destruct IH as (Hs & Hp & Ht & Hv & Ha).
      rewrite Hs, Hp, Ht, Hv, Ha.
      change (filter (blastHits (mkEnemy (e_id e) (e_pos e) (e_startPos e)
                (e_target e) (e_speed e) (e_radius e) (e_color e) false)) xs)
        with (filter (blastHits e) xs).
      cbn [List.length]. repeat split.
      * unfold scoreHit. simpl scoreRef. lia.
      * now destruct (_ =? 0)%nat.
    + rewrite collide_miss by assumption. apply IH.
Qed.

(** ** Launching *)

Lemma closer_nearest targetX seen acc b :
  nearest_of targetX seen acc ->
  nearest_of targetX (seen ++ [b]) (closer targetX acc b).
Proof.
  unfold closer. fold (eligible b). intros H.
  destruct acc as [[b0|] [m|]]; simpl in H; try contradiction.
  - destruct H as (Hin & He & Hm & Hall).
    destruct (eligible b) eqn:Eb; simpl.
    + destruct (Num.ltb _ m) eqn:El; simpl.
      * apply ltb_iff in El. repeat split; auto.
        -- apply in_or_app. right. now left.
        -- apply Forall_app. split.
           ++ eapply Forall_impl; [|exact Hall]. simpl. intros a Ha X.
              specialize (Ha X). lra.
           ++ constructor; [|constructor]. intros _. lra.
      * rewrite <- not_true_iff_false, ltb_iff in El. repeat split; auto.
        -- apply in_or_app. now left.
        -- apply Forall_app. split; [assumption|].
           constructor; [|constructor]. intros _. lra.
    + repeat split; auto.
      * apply in_or_app. now left.
      * apply Forall_app. split; [assumption|].
        constructor; [|constructor]. congruence.
  - destruct (eligible b) eqn:Eb; simpl.
    + repeat split; auto.
      * apply in_or_app. right. now left.
      * apply Forall_app. split.
        -- eapply Forall_impl; [|exact H]. simpl. congruence.
        -- constructor; [|constructor]. intros _. lra.
    + apply Forall_app. split; [assumption|]. now constructor.
Qed.

Lemma fold_closer_nearest targetX bs : forall seen acc,
  nearest_of targetX seen acc ->
  nearest_of targetX (seen ++ bs) (fold_left (closer targetX) bs acc).
Proof.
  induction bs as [|b bs IH]; intros seen acc H; simpl.
  - now rewrite app_nil_r.
  - replace (seen ++ b :: bs) with ((seen ++ [b]) ++ bs)
      by (now rewrite <- app_assoc).
    apply IH. now apply closer_nearest.
Qed.

Lemma bestBattery_spec targetX bs :
  match bestBattery targetX bs with
  | None => Forall (fun b => eligible b = false) bs
  | Some b =>
      In b bs /\ eligible b = true /\
      Forall (fun b' => eligible b' = true ->
                Rabs (p_x (b_pos b) - targetX)
                <= Rabs (p_x (b_pos b') - targetX)) bs
  end.
Proof.
  unfold bestBattery.
  pose proof (fold_closer_nearest targetX bs [] (None, None)) as H.
  simpl in H. specialize (H (Forall_nil _)).
  destruct (fold_left (closer targetX) bs (None, None)) as [[b|] [m|]];
    simpl in *; try contradiction; [|assumption].
  destruct H as (Hin & He & -> & Hall). auto.
Qed.

Lemma fire_by_id b l1 l2 :
  NoDup (map b_id (l1 ++ b :: l2)) ->
  map (fun pb => if String.eqb (b_id pb) (b_id b)
                 then mkBattery (b_id pb) (b_pos pb) (b_missiles pb - 1)
                                (b_maxMissiles pb) (b_destroyed pb)
                 else pb) (l1 ++ b :: l2)
  = l1 ++ fired b :: l2.
Proof.
  intros Hnd. rewrite map_app in Hnd. simpl in Hnd.
  pose proof (NoDup_remove_2 _ _ _ Hnd) as Hnotin.
  rewrite map_app. simpl. rewrite String.eqb_refl. fold (fired b).
  assert (Hid : forall l, ~ In (b_id b) (map b_id l) ->
            map (fun pb => if String.eqb (b_id pb) (b_id b)
                           then mkBattery (b_id pb) (b_pos pb)
                                  (b_missiles pb - 1) (b_maxMissiles pb)
                                  (b_destroyed pb)
                           else pb) l = l).
  { induction l as [|a l IH]; simpl; intros Hn; [reflexivity|].
    destruct (String.eqb_spec (b_id a) (b_id b)) as [E|E].
    - exfalso. apply Hn. now left.
    - f_equal. apply IH. tauto. }
  rewrite !Hid; [reflexivity | |];
    intros X; apply Hnotin; apply in_or_app; tauto.
Qed.

Lemma initial_ids_NoDup : NoDup (map b_id INITIAL_BATTERIES).
Proof.
  simpl. repeat constructor; simpl; intuition discriminate.
Qed.

Lemma Forall2_ids (Q : Battery -> Battery -> Prop) bs bs' :
  (forall b b', Q b b' -> b_id b' = b_id b) ->
  Forall2 Q bs bs' -> map b_id bs' = map b_id bs.
Proof. intros HQ. induction 1; simpl; f_equal; auto. Qed.

Lemma launch_stocked r p w : stocked w -> stocked (launch r p w).
Proof.
  intros [Hid Hst]. unfold launch.
  pose proof (bestBattery_spec (p_x p) (batteries w)) as Hb.
  destruct (bestBattery (p_x p) (batteries w)) as [b|]; [|now split].
  destruct Hb as (Hin & He & _).
  destruct (in_split _ _ Hin) as (l1 & l2 & E).
  unfold stocked, set_missilesRef, set_batteries. cbn [batteries].
  rewrite E, fire_by_id.
  2:{ rewrite <- E, Hid. apply initial_ids_NoDup. }
  split.
  - rewrite <- Hid, E, !map_app. reflexivity.
  - rewrite E in Hst. apply Forall_app in Hst. destruct Hst as [H1 H2].
    inversion H2 as [|? ? Hb0 H3]; subst.
    apply Forall_app. split; [assumption|]. constructor; [|assumption].
    unfold eligible in He. apply andb_true_iff in He. destruct He as [_ He].
    apply Z.ltb_lt in He. simpl. lia.
Qed.

Lemma reachable_stocked w : reachable w -> stocked w.
Proof.
  induction 1 as [|mode w _ _|r cv ev w _ IH|d time w _ IH].
  - split; [reflexivity|]. simpl. repeat constructor; simpl; lia.
  - split; [reflexivity|]. simpl. repeat constructor; simpl; lia.
  - unfold handleCanvasClick. destruct (negb _); [assumption|].
    destruct cv; [|assumption]. now apply launch_stocked.
  - destruct IH as [Hid Hst]. destruct (update_wear d time w) as [Hw _].
    split.
    + rewrite <- Hid. apply (Forall2_ids b_wear); [|assumption].
      unfold b_wear. tauto.
    + clear Hid. induction Hw as [|b b' l l' Hbb _ IHw]; [constructor|].
      inversion Hst; subst. constructor; [|auto].
      destruct Hbb as (_ & _ & -> & -> & _). assumption.
Qed.

(** ** Score *)

Lemma collide_score w e exp :
  scoreRef (fst (collide (w, e) exp)) =
  (if blastHits e exp then scoreRef w + 20 else scoreRef w)%Z.
Proof.
  destruct (blastHits e exp) eqn:E.
  - now rewrite collide_hit.
  - now rewrite collide_miss.
Qed.

Lemma moveEnemy_score d ss w e :
  scoreRef (fst (moveEnemy d ss w e)) = scoreRef w.
Proof. unfold moveEnemy. break_if; reflexivity. Qed.

Lemma updateEnemy_score d ss w e :
  scoreRef (fst (updateEnemy d ss w e)) =
  (if e_active e
   then scoreRef w + 20 * Z.of_nat
          (List.length
             (filter (blastHits (snd (moveEnemy d ss w e)))
                     (explosionsRef (fst (moveEnemy d ss w e)))))
   else scoreRef w)%Z.
Proof.
  unfold updateEnemy. destruct (e_active e); simpl; [|reflexivity].
  pose proof (moveEnemy_score d ss w e) as Hs.
  destruct (moveEnemy d ss w e) as [w1 e1]. simpl in *.
  destruct (fold_collide_spec (explosionsRef w1) w1 e1) as (-> & _).
  now rewrite Hs.
Qed.

Lemma cleanup_score w : scoreRef (cleanup w) = scoreRef w.
Proof. reflexivity. Qed.

Lemma click_score r cv ev w :
  scoreRef (handleCanvasClick r cv ev w) = scoreRef w.
Proof.
  unfold handleCanvasClick, launch. break_if; try reflexivity.
  destruct cv; [|reflexivity]. now destruct (bestBattery _ _).
Qed.

Lemma advance_score d dt w :
  exists k : nat, scoreRef (advance d dt w) = (scoreRef w + 20 * Z.of_nat k)%Z.
Proof.
  destruct (advance_inv
              (fun w' => exists k : nat,
                           scoreRef w' = (scoreRef w + 20 * Z.of_nat k)%Z)
              d dt w) as (w5 & -> & Hk); try (intros; assumption).
  - exists 0%nat.
    destruct (spawnEnemies_cells d (MODE_CONFIGS (gs_mode (gameState w))) dt
                (cities w) (batteries w) w) as (_ & _ & _ & -> & _).
    lia.
  - intros w' m [k Hk].
    destruct (updateMissile_cells d (MODE_CONFIGS (gs_mode (gameState w)))
                (dt / (1667 / 100)) w' m) as (_ & _ & _ & -> & _).
    now exists k.
  - intros w' e [k Hk]. rewrite updateEnemy_score.
    destruct (e_active e); [|now exists k].
    match goal with
    | |- context[Z.of_nat (List.length ?l)] =>
        exists (k + List.length l)%nat
    end.
    rewrite Hk. lia.
Qed.

(** ** Running the program on concrete worlds *)

Lemma distance_eq dx dy r :
  0 <= r -> dx * dx + dy * dy = r * r -> distance dx dy = r.
Proof. intros Hr E. unfold distance. rewrite E. now apply sqrt_square. Qed.

Lemma floor_zero_mul a : Num.floor (0 * a) = 0%Z.
Proof.
  unfold Num.floor. symmetry. apply Int_part_spec. simpl. lra.
Qed.

(** The branches of the frame as equations. *)

Lemma update_playing_eq d time w :
  gs_status (gameState w) = PLAYING ->
  update d time w =
  checkGameOver (batteries w)
    (cleanup (advance d (deltaOf time w) (set_lastTimeRef time w))).
Proof. intros H. unfold update. simpl gameState. now rewrite H. Qed.

Lemma spawnEnemies_quiet d config dt cs bs w :
  spawnTimerRef w + dt <= spawnInterval (scoreRef w) ->
  spawnEnemies d config dt cs bs w =
  set_spawnTimerRef (spawnTimerRef w + dt) w.
Proof.
  intros H. unfold spawnEnemies. simpl. rewrite ltb_false; [reflexivity|lra].
Qed.

Lemma spawnEnemies_fire d config dt cs bs w target :
  spawnInterval (scoreRef w) < spawnTimerRef w + dt ->
  at_index (targetOptions cs bs)
           (Num.floor (d_target d * INR (List.length (targetOptions cs bs))))
  = Some target ->
  spawnEnemies d config dt cs bs w =
  set_enemiesRef
    (enemiesRef w ++
     [mkEnemy (d_id d) (mkPoint (d_posX d * GAME_WIDTH) (-20))
              (mkPoint (d_startX d * GAME_WIDTH) (-20)) target
              ((8 / 10 + d_speed d * (6 / 10)) * speedMult config) 2
              COLORS.ENEMY_MISSILE true])
    (set_spawnTimerRef 0 w).
Proof.
  intros H Ht. unfold spawnEnemies. simpl. rewrite ltb_true by lra.
  rewrite Ht.
  destruct (targetOptions cs bs) as [|o opts] eqn:E.
  - unfold at_index in Ht. destruct (_ <? 0)%Z; [discriminate|].
    now destruct (Z.to_nat _).
  - simpl. now destruct w.
Qed.

Lemma updateMissile_arrive d config ss w m :
  m_active m = true ->
  arrived (distance (p_x (m_target m) - p_x (m_pos m))
                    (p_y (m_target m) - p_y (m_pos m)))
          (m_speed m * ss) = true ->
  updateMissile d config ss w m =
  (set_explosionsRef
     (explosionsRef w ++
      [mkExplosion (d_blastId d (List.length (explosionsRef w))) (m_target m)
                   0 2 (96 * powerMult config) (3 * ss) false
                   COLORS.EXPLOSION true]) w,
   mkMissile (m_id m) (m_pos m) (m_startPos m) (m_target m) (m_speed m)
             (m_radius m) (m_color m) false).
Proof. intros Ha H. unfold updateMissile. now rewrite Ha, H. Qed.

Lemma moveEnemy_arrive d ss w e :
  arrived (distance (p_x (e_target e) - p_x (e_pos e))
                    (p_y (e_target e) - p_y (e_pos e)))
          (e_speed e * ss) = true ->
  moveEnemy d ss w e =
  (set_explosionsRef
     (explosionsRef w ++
      [mkExplosion (d_blastId d (List.length (explosionsRef w))) (e_pos e)
                   0 2 36 (24 / 10 * ss) false COLORS.ENEMY_MISSILE true])
     (set_batteries (impactBatteries (e_pos e) (batteries w))
        (set_cities (impactCities (e_pos e) (cities w)) w)),
   mkEnemy (e_id e) (e_pos e) (e_startPos e) (e_target e) (e_speed e)
           (e_radius e) (e_color e) false).
Proof. intros H. unfold moveEnemy. now rewrite H. Qed.

Lemma moveEnemy_move d ss w e :
  arrived (distance (p_x (e_target e) - p_x (e_pos e))
                    (p_y (e_target e) - p_y (e_pos e)))
          (e_speed e * ss) = false ->
  moveEnemy d ss w e =
  (w,
   mkEnemy (e_id e)
     (mkPoint
        (p_x (e_pos e) +
         (p_x (e_target e) - p_x (e_pos e)) /
         distance (p_x (e_target e) - p_x (e_pos e))
                  (p_y (e_target e) - p_y (e_pos e)) * (e_speed e * ss))
        (p_y (e_pos e) +
         (p_y (e_target e) - p_y (e_pos e)) /
         distance (p_x (e_target e) - p_x (e_pos e))
                  (p_y (e_target e) - p_y (e_pos e)) * (e_speed e * ss)))
     (e_startPos e) (e_target e) (e_speed e) (e_radius e) (e_color e)
     (e_active e)).
Proof. intros H. unfold moveEnemy. now rewrite H. Qed.

Lemma updateEnemy_active d ss w e :
  e_active e = true ->
  updateEnemy d ss w e =
  fold_left collide (explosionsRef (fst (moveEnemy d ss w e)))
            (moveEnemy d ss w e).
Proof.
  intros H. unfold updateEnemy. rewrite H. simpl.
  now destruct (moveEnemy d ss w e).
Qed.

Ltac cmp_true :=
  solve [ lra
        | unfold Rmax; destruct (Rle_dec _ _); lra
        | unfold Rabs; repeat destruct (Rcase_abs _); lra ].

Ltac eval_cmp :=
  repeat match goal with
  | |- context[Num.leb ?a ?b] =>
      first [ rewrite (leb_true a b) by cmp_true
            | rewrite (leb_false a b) by cmp_true ]
  | |- context[Num.ltb ?a ?b] =>
      first [ rewrite (ltb_true a b) by cmp_true
            | rewrite (ltb_false a b) by cmp_true ]
  | |- context[Num.eqb ?a ?b] =>
      first [ rewrite (eqb_true a b) by cmp_true
            | rewrite (eqb_false a b) by cmp_true ]
  end.

(** Normal form of a world built from cell writes on a literal record. *)
Ltac cells :=
  cbv beta iota zeta delta
    [set_gameState set_batteries set_cities set_missilesRef set_enemiesRef
     set_explosionsRef set_lastTimeRef set_spawnTimerRef set_scoreRef
     scoreHit set_score set_status
     gameState batteries cities missilesRef enemiesRef explosionsRef
     lastTimeRef spawnTimerRef scoreRef
     gs_score gs_level gs_mode gs_status fst snd
     updateMissiles updateEnemies updateExplosions forEach fold_left map
     app List.length filter cleanup
     p_x p_y
     m_id m_pos m_startPos m_target m_speed m_radius m_color m_active
     e_id e_pos e_startPos e_target e_speed e_radius e_color e_active
     x_id x_pos x_speed x_radius x_maxRadius x_growthRate x_isShrinking
     x_color x_active
     negb].

Ltac dist_is r :=
  match goal with
  | |- context[distance ?a ?b] => rewrite (distance_eq a b r) by (simpl; lra)
  end.

Lemma clickAtB1_eq : clickAtB1 =
  mkWorld (mkGameState 0 1 LOW PLAYING)
    [ mkBattery "b1" (mkPoint 100 560) 19 20 false;
      mkBattery "b2" (mkPoint 400 560) 40 40 false;
      mkBattery "b3" (mkPoint 700 560) 20 20 false ]
    [ mkCity "c1" (mkPoint 200 570) false;
      mkCity "c2" (mkPoint 300 570) false;
      mkCity "c3" (mkPoint 500 570) false;
      mkCity "c4" (mkPoint 600 570) false ]
    [ mkMissile 0 (mkPoint 100 560) (mkPoint 100 560)
        (mkPoint ((100 - 0) * (800 / 800)) ((560 - 0) * (600 / 600)))
        (5 * 1) 2 COLORS.PLAYER_MISSILE true ]
    [] [] 0 0 0.
Proof.
  unfold clickAtB1, handleCanvasClick, launch, bestBattery. simpl.
  unfold closer. simpl. eval_cmp. simpl. eval_cmp. reflexivity.
Qed.

Lemma firstFrame_explosions :
  explosionsRef (update noDraws 1000 clickAtB1) =
  [ mkExplosion 0
      (mkPoint ((100 - 0) * (800 / 800)) ((560 - 0) * (600 / 600)))
      0 (2 + 3 * (0 / (1667 / 100))) (96 * 1)
      (3 * (0 / (1667 / 100))) false COLORS.EXPLOSION true ].
Proof.
  rewrite clickAtB1_eq.
  rewrite update_playing_eq by reflexivity.
  match goal with
  | |- context[deltaOf ?t ?w] =>
      replace (deltaOf t w) with 0
        by (unfold deltaOf; simpl; eval_cmp; lra)
  end.
  unfold advance.
  rewrite spawnEnemies_quiet by (simpl; unfold spawnInterval; cmp_true).
  cells.
  rewrite updateMissile_arrive
    by (try reflexivity; simpl; dist_is 0; unfold arrived; eval_cmp;
        reflexivity).
  cells. unfold updateExplosion. simpl. eval_cmp. reflexivity.
Qed.

Lemma firstFrame_run : run (update noDraws 1000 clickAtB1).
Proof.
  apply run_frame.
  - unfold clickAtB1. apply run_click, run_start, run_mount.
  - rewrite clickAtB1_eq. unfold deltaOf. simpl. eval_cmp. lra.
Qed.

Lemma doubleBlast_frame :
  update noDraws nextTick doubleBlast =
  mkWorld (mkGameState 40 1 LOW PLAYING) INITIAL_BATTERIES INITIAL_CITIES
    [] []
    [ mkExplosion 0 (mkPoint 300 101) 0 (50 + 3) 96 3 false
                  COLORS.EXPLOSION true;
      mkExplosion 0 (mkPoint 303 105) 0 (50 + 3) 96 3 false
                  COLORS.EXPLOSION true ]
    nextTick (0 + 1667 / 100) 40.
Proof.
  rewrite update_playing_eq by reflexivity.
  replace (deltaOf nextTick doubleBlast) with (1667 / 100)
    by (unfold deltaOf, nextTick; simpl; eval_cmp; lra).
  unfold advance.
  replace (1667 / 100 / (1667 / 100)) with 1 by lra.
  rewrite spawnEnemies_quiet by (simpl; unfold spawnInterval; cmp_true).
  unfold doubleBlast. cells.
  rewrite updateEnemy_active by reflexivity.
  rewrite moveEnemy_move
    by (simpl; dist_is 470; unfold arrived; eval_cmp; reflexivity).
  cells. dist_is 470.
  rewrite collide_hit
    by (unfold blastHits; simpl; dist_is 0; eval_cmp; reflexivity).
  rewrite collide_hit
    by (unfold blastHits; simpl; dist_is 5; eval_cmp; reflexivity).
  cells. unfold updateExplosion. simpl. eval_cmp. reflexivity.
Qed.

Lemma scored20_frame :
  exists p,
    update quarterDraws 2990 scored20 =
    mkWorld (mkGameState 20 1 LOW PLAYING) INITIAL_BATTERIES INITIAL_CITIES
      []
      [ mkEnemy 0 p (mkPoint (1 / 4 * GAME_WIDTH) (-20)) (mkPoint 200 570)
                ((8 / 10 + 0 * (6 / 10)) * 1) 2 COLORS.ENEMY_MISSILE true ]
      [] 2990 0 20.
Proof.
  rewrite update_playing_eq by reflexivity.
  replace (deltaOf 2990 scored20) with 1990
    by (unfold deltaOf; simpl; eval_cmp; lra).
  unfold advance.
  rewrite (spawnEnemies_fire _ _ _ _ _ _ (mkPoint 200 570))
    by (simpl; try (unfold spawnInterval; cmp_true);
        rewrite floor_zero_mul; reflexivity).
  unfold scored20, quarterDraws. cells.
  rewrite updateEnemy_active by reflexivity.
  rewrite moveEnemy_move
    by (unfold GAME_WIDTH; simpl; dist_is 590; unfold arrived; eval_cmp;
        reflexivity).
  cells. simpl. eexists. reflexivity.
Qed.

Lemma lateFrame_eq :
  update noDraws lateTick lateWorld =
  mkWorld (mkGameState 0 1 LOW PLAYING) INITIAL_BATTERIES INITIAL_CITIES
    [] []
    [ mkExplosion 0 (mkPoint 200 540) 0 (2 + 24 / 10 * 40) 36
        (24 / 10 * 40) true COLORS.ENEMY_MISSILE true;
      mkExplosion 0 (mkPoint 100 522) 0 (2 + 24 / 10 * 40) 36
        (24 / 10 * 40) true COLORS.ENEMY_MISSILE true ]
    lateTick (0 + 40 * (1667 / 100)) 0.
Proof.
  rewrite update_playing_eq by reflexivity.
  replace (deltaOf lateTick lateWorld) with (40 * (1667 / 100))
    by (unfold deltaOf, lateTick; simpl; eval_cmp; lra).
  unfold advance.
  replace (40 * (1667 / 100) / (1667 / 100)) with 40 by lra.
  rewrite spawnEnemies_quiet by (simpl; unfold spawnInterval; cmp_true).
  unfold lateWorld. cells.
  rewrite updateEnemy_active by reflexivity.
  rewrite moveEnemy_arrive
    by (simpl; dist_is 30; unfold arrived; eval_cmp; reflexivity).
  cells.
  rewrite collide_miss by reflexivity. cells.
  rewrite updateEnemy_active by reflexivity.
  rewrite moveEnemy_arrive
    by (simpl; dist_is 38; unfold arrived; eval_cmp; reflexivity).
  cells.
  rewrite !collide_miss by reflexivity. cells.
  unfold impactCities, impactBatteries, near. simpl. eval_cmp. simpl.
  unfold updateExplosion. simpl. eval_cmp. reflexivity.
Qed.
(** ** Explosions over a session *)

Lemma run_blasts w : run w -> Forall blast_inv (explosionsRef w).
Proof.
  induction 1 as [|mode w _ _|r cv ev w _ IH|d time w _ IH Hdt].
  - constructor.
  - constructor.
  - unfold handleCanvasClick, launch. break_if; try assumption.
    destruct cv; [|assumption]. now destruct (bestBattery _ _).
  - unfold update. destruct (negb _); [assumption|].
    eapply Forall_impl; [|apply simulate_blasts; [exact Hdt|exact IH]].
    simpl. tauto.
Qed.

(** ** One enemy inside two player explosions *)

(** C1: [doubleBlast] holds a single enemy and two active player
    explosions; one frame later the enemy stands inside both, each of the
    two tests adds 20, and the score has grown by 40 for that one enemy. *)
Theorem double_credit :
  List.length (enemiesRef doubleBlast) = 1%nat /\
  scoreRef doubleBlast = 0%Z /\
  scoreRef (update noDraws nextTick doubleBlast) = 40%Z /\
  gs_score (gameState (update noDraws nextTick doubleBlast)) = 40%Z /\
  enemiesRef (update noDraws nextTick doubleBlast) = [].
Proof.
  rewrite doubleBlast_frame. simpl. auto.
Qed.

(** ** The spawn scheduler *)

(** The interval the code computes: no rounding between the division and
    the multiplication. *)
Lemma spawnInterval_eq score : spawnInterval score = Rmax 500 (2000 - IZR score).
Proof. unfold spawnInterval. f_equal. lra. Qed.

(** The two intervals agree at every multiple of 100, and only differ
    strictly between two of them. *)
Lemma spawnInterval_at_hundreds score :
  (score mod 100 = 0)%Z -> spawnInterval score = specInterval score.
Proof.
  intros H. rewrite spawnInterval_eq. unfold specInterval. f_equal. f_equal.
  rewrite (Z.div_mod score 100) at 1 by lia. rewrite H, Z.add_0_r.
  rewrite mult_IZR. lra.
Qed.

(** The accumulator, the trigger, the reset and the empty-pool skip. *)
Lemma spawnEnemies_timer d config dt cs bs w :
  let w' := spawnEnemies d config dt cs bs w in
  let fires := spawnTimerRef w + dt > spawnInterval (scoreRef w) in
  (fires -> spawnTimerRef w' = 0) /\
  (~ fires -> spawnTimerRef w' = spawnTimerRef w + dt /\
              enemiesRef w' = enemiesRef w) /\
  (targetOptions cs bs = [] -> enemiesRef w' = enemiesRef w) /\
  (enemiesRef w' = enemiesRef w \/
   exists e, enemiesRef w' = enemiesRef w ++ [e] /\ In (e_target e) (targetOptions cs bs)).
Proof.
  cbv zeta. unfold spawnEnemies. simpl.
  destruct (Num.ltb _ _) eqn:E.
  - apply ltb_iff in E. split; [|split; [|split]].
    + intros _. destruct (0 <? _)%nat; [|reflexivity].
      destruct (at_index _ _); reflexivity.
    + intros H. exfalso. apply H. lra.
    + intros ->. reflexivity.
    + destruct (0 <? _)%nat; [|now left].
      destruct (at_index _ _) as [t|] eqn:Et; [|now left].
      right. eexists. split; [reflexivity|]. simpl.
      unfold at_index in Et. destruct (_ <? 0)%Z; [discriminate|].
      now apply nth_error_In in Et.
  - rewrite <- not_true_iff_false, ltb_iff in E. split; [|split; [|split]].
    + intros H. exfalso. apply E. lra.
    + intros _. now split.
    + reflexivity.
    + now left.
Qed.

Lemma spawn_index_in_range {A : Type} (opts : list A) (r : R) :
  0 <= r < 1 -> opts <> [] ->
  exists t, at_index opts (Num.floor (r * INR (List.length opts))) = Some t.
Proof.
  intros [Hr0 Hr1] Hne. unfold at_index, Num.floor.
  set (n := List.length opts).
  assert (Hn : 0 < INR n).
  { apply lt_0_INR. unfold n. destruct opts; [congruence|simpl; lia]. }
  destruct (base_Int_part (r * INR n)) as [Hlo Hhi].
  set (z := Int_part (r * INR n)) in *.
  assert (Hz0 : (0 <= z)%Z).
  { apply Z.lt_succ_r. apply lt_IZR. rewrite succ_IZR.
    assert (0 <= r * INR n) by (apply Rmult_le_pos; lra). lra. }
  assert (Hzn : (z < Z.of_nat n)%Z).
  { apply lt_IZR. rewrite <- INR_IZR_INZ.
    assert (r * INR n < 1 * INR n) by (apply Rmult_lt_compat_r; lra). lra. }
  destruct (z <? 0)%Z eqn:E; [apply Z.ltb_lt in E; lia|].
  destruct (nth_error opts (Z.to_nat z)) as [t|] eqn:Et; [now exists t|].
  apply nth_error_None in Et. fold n in Et. lia.
Qed.

(** C2: with score 20 and 1990 ms accumulated, the interval of the
    specification, with its integer floor, is 2000 ms and is not exceeded,
    yet the frame spawns an enemy and resets the accumulator, because the
    interval the code computes is 1980 ms. *)
Theorem spawn_interval_unfloored :
  scoreRef scored20 = 20%Z /\
  spawnTimerRef scored20 + deltaOf 2990 scored20 = 1990 /\
  specInterval 20 = 2000 /\
  spawnInterval 20 = 1980 /\
  enemiesRef scored20 = [] /\
  spawnTimerRef (update quarterDraws 2990 scored20) = 0 /\
  List.length (enemiesRef (update quarterDraws 2990 scored20)) = 1%nat.
Proof.
  split; [reflexivity|].
  split; [unfold deltaOf, scored20; simpl; eval_cmp; lra|].
  split; [unfold specInterval; change (20 / 100)%Z with 0%Z; unfold Rmax;
          destruct (Rle_dec _ _); lra|].
  split; [unfold spawnInterval, Rmax; destruct (Rle_dec _ _); lra|].
  split; [reflexivity|].
  destruct scored20_frame as [p ->]. simpl. auto.
Qed.

(** ** The theorems at concrete inputs *)

Lemma win_loss_check_witness :
  gs_status (gameState (startGame LOW initialWorld)) = PLAYING /\
  (gs_status (gameState (update noDraws 0 (startGame LOW initialWorld))) = WON
   <-> (WIN_SCORE <= scoreRef (update noDraws 0 (startGame LOW initialWorld)))%Z).
Proof.
  split; [reflexivity|].
  exact (proj1 (proj2 (proj2
           (win_loss_check noDraws 0 (startGame LOW initialWorld) eq_refl)))).
Defined.

(** * Further properties of the program *)

(** ** Which battery fires *)

Lemma closer_first_nearest targetX seen acc b :
  first_nearest_of targetX seen acc ->
  first_nearest_of targetX (seen ++ [b]) (closer targetX acc b).
Proof.
  unfold closer. fold (eligible b). intros H.
  destruct acc as [[b0|] [m|]]; simpl in H; try contradiction.
  - destruct H as (Hm & He & l1 & l2 & Hs & H1 & H2).
    destruct (eligible b) eqn:Eb; simpl.
    + destruct (Num.ltb _ m) eqn:El; simpl.
      * apply ltb_iff in El. split; [reflexivity|]. split; [assumption|].
        exists seen, []. split; [reflexivity|]. split; [|constructor].
        rewrite Hs. apply Forall_app. split.
        -- eapply Forall_impl; [|exact H1]. simpl. intros a Ha X.
           specialize (Ha X). lra.
        -- constructor.
           ++ intros _. lra.
           ++ eapply Forall_impl; [|exact H2]. simpl. intros a Ha X.
              specialize (Ha X). lra.
      * rewrite <- not_true_iff_false, ltb_iff in El.
        split; [assumption|]. split; [assumption|].
        exists l1, (l2 ++ [b]). split; [|split; [assumption|]].
        -- rewrite Hs, <- app_assoc. reflexivity.
        -- apply Forall_app. split; [assumption|].
           constructor; [|constructor]. intros _. lra.
    + split; [assumption|]. split; [assumption|].
      exists l1, (l2 ++ [b]). split; [|split; [assumption|]].
      * rewrite Hs, <- app_assoc. reflexivity.
      * apply Forall_app. split; [assumption|].
        constructor; [|constructor]. congruence.
  - destruct (eligible b) eqn:Eb; simpl.
    + split; [reflexivity|]. split; [assumption|].
      exists seen, []. split; [reflexivity|]. split; [|constructor].
      eapply Forall_impl; [|exact H]. simpl. congruence.
    + apply Forall_app. split; [assumption|]. now constructor.
Qed.

Lemma fold_closer_first_nearest targetX bs : forall seen acc,
  first_nearest_of targetX seen acc ->
  first_nearest_of targetX (seen ++ bs) (fold_left (closer targetX) bs acc).
Proof.
  induction bs as [|b bs IH]; intros seen acc H; simpl.
  - now rewrite app_nil_r.
  - replace (seen ++ b :: bs) with ((seen ++ [b]) ++ bs)
      by (now rewrite <- app_assoc).
    apply IH. now apply closer_first_nearest.
Qed.

(** X1: the launch handler picks the first of the nearest eligible
    batteries: every eligible battery listed before the pick is strictly
    farther from the target column, every one after it at least as far. *)
Theorem bestBattery_first_nearest : forall targetX bs b,
  bestBattery targetX bs = Some b ->
  eligible b = true /\
  exists l1 l2,
    bs = l1 ++ b :: l2 /\
    Forall (fun b' => eligible b' = true ->
              Rabs (p_x (b_pos b) - targetX)
              < Rabs (p_x (b_pos b') - targetX)) l1 /\
    Forall (fun b' => eligible b' = true ->
              Rabs (p_x (b_pos b) - targetX)
              <= Rabs (p_x (b_pos b') - targetX)) l2.
Proof.
  intros targetX bs b. unfold bestBattery.
  pose proof (fold_closer_first_nearest targetX bs [] (None, None)) as H.
  simpl in H. specialize (H (Forall_nil _)).
  destruct (fold_left (closer targetX) bs (None, None)) as [[b0|] [m|]];
    simpl in *; try contradiction; try discriminate.
  intros E. injection E as <-.
  destruct H as (-> & He & l1 & l2 & Hs & H1 & H2).
  split; [assumption|]. now exists l1, l2.
Qed.

Lemma bestBattery_tie :
  bestBattery 250 INITIAL_BATTERIES =
  Some (mkBattery "b1" (mkPoint 100 560) 20 20 false).
Proof.
  unfold bestBattery, INITIAL_BATTERIES. simpl. unfold closer. simpl.
  eval_cmp. simpl. eval_cmp. reflexivity.
Qed.

Lemma bestBattery_first_nearest_witness :
  bestBattery 250 INITIAL_BATTERIES =
    Some (mkBattery "b1" (mkPoint 100 560) 20 20 false) /\
  eligible (mkBattery "b1" (mkPoint 100 560) 20 20 false) = true.
Proof.
  split; [exact bestBattery_tie|].
  exact (proj1 (bestBattery_first_nearest 250 INITIAL_BATTERIES _
                  bestBattery_tie)).
Defined.

(** ** Ammunition *)

Lemma totalAmmo_app l1 l2 :
  totalAmmo (l1 ++ l2) = (totalAmmo l1 + totalAmmo l2)%Z.
Proof. induction l1 as [|b l1 IH]; simpl; [reflexivity|]. rewrite IH. lia. Qed.

Lemma totalAmmo_wear bs bs' :
  Forall2 b_wear bs bs' -> totalAmmo bs' = totalAmmo bs.
Proof.
  induction 1 as [|b b' l l' H _ IH]; simpl; [reflexivity|].
  destruct H as (_ & _ & -> & _). now rewrite IH.
Qed.

(** X2: a pointer event either changes nothing at all, or takes exactly
    one missile out of the batteries' joint stock and puts exactly one
    active missile in flight, standing on a battery of the layout; in both
    cases the cities, enemies, explosions, score, status and timers are
    left alone. *)
Theorem click_spends_one : forall r cv ev w,
  NoDup (map b_id (batteries w)) ->
  let w' := handleCanvasClick r cv ev w in
  (w' = w \/
   (totalAmmo (batteries w') = totalAmmo (batteries w) - 1)%Z /\
   exists m,
     missilesRef w' = missilesRef w ++ [m] /\ m_active m = true /\
     m_startPos m = m_pos m /\ In (m_pos m) (map b_pos (batteries w))) /\
  cities w' = cities w /\ enemiesRef w' = enemiesRef w /\
  explosionsRef w' = explosionsRef w /\ scoreRef w' = scoreRef w /\
  gameState w' = gameState w /\ lastTimeRef w' = lastTimeRef w /\
  spawnTimerRef w' = spawnTimerRef w.
Proof.
  intros r cv ev w Hnd. cbv zeta. unfold handleCanvasClick.
  destruct (negb _); [now repeat split; auto|].
  destruct cv as [cv|]; [|now repeat split; auto].
  unfold launch.
  pose proof (bestBattery_spec
                ((clientX ev - rect_left cv) * (cv_width cv / rect_width cv))
                (batteries w)) as Hb.
  simpl p_x.
  destruct (bestBattery _ (batteries w)) as [b|]; [|now repeat split; auto].
  destruct Hb as (Hin & He & _).
  destruct (in_split _ _ Hin) as (l1 & l2 & E).
  split; [|now repeat split].
  right. simpl. split.
  - rewrite E in Hnd |- *. rewrite (fire_by_id b l1 l2 Hnd).
    rewrite !totalAmmo_app. simpl. lia.
  - eexists. split; [reflexivity|]. simpl. repeat split.
    now apply in_map.
Qed.

Lemma click_spends_one_witness :
  let w := startGame LOW initialWorld in
  let w' := handleCanvasClick 0 (Some unitCanvas) (mkPointer 100 560) w in
  NoDup (map b_id (batteries w)) /\
  cities w' = cities w /\ scoreRef w' = scoreRef w.
Proof.
  cbv zeta.
  assert (H : NoDup (map b_id (batteries (startGame LOW initialWorld))))
    by exact initial_ids_NoDup.
  split; [exact H|].
  destruct (click_spends_one 0 (Some unitCanvas) (mkPointer 100 560)
              (startGame LOW initialWorld) H) as (_ & Hc & _ & _ & Hs & _).
  now split.
Defined.

(** X4: a frame changes no battery's id, position, stock or capacity and
    no city's id or position, and never clears a destroyed flag; the joint
    stock of the batteries is the same before and after. *)
Theorem frame_keeps_stock : forall d time w,
  Forall2 b_wear (batteries w) (batteries (update d time w)) /\
  Forall2 c_wear (cities w) (cities (update d time w)) /\
  totalAmmo (batteries (update d time w)) = totalAmmo (batteries w).
Proof.
  intros d time w. destruct (update_wear d time w) as [Hb Hc].
  split; [assumption|]. split; [assumption|]. now apply totalAmmo_wear.
Qed.

(** ** The spawn interval *)

(** X6: the interval between spawns is 2000 ms at score 0 and 500 ms from
    score 1500 on; for scores [0 <= s <= s'] it never drops below 500 ms,
    never exceeds 2000 ms, and never grows with the score. *)
Theorem spawnInterval_bounds : forall s s',
  (0 <= s <= s')%Z ->
  500 <= spawnInterval s' /\ spawnInterval s' <= spawnInterval s /\
  spawnInterval s <= 2000 /\
  ((1500 <= s)%Z -> spawnInterval s = 500) /\
  spawnInterval 0 = 2000.
Proof.
  intros s s' [H0 Hle].
  assert (Hs : 0 <= IZR s) by (now apply IZR_le).
  assert (Hs' : IZR s <= IZR s') by (now apply IZR_le).
  rewrite !spawnInterval_eq. unfold Rmax.
  split; [|split; [|split; [|split]]].
  - repeat destruct (Rle_dec _ _); lra.
  - repeat destruct (Rle_dec _ _); lra.
  - repeat destruct (Rle_dec _ _); lra.
  - intros H. apply IZR_le in H. destruct (Rle_dec _ _); lra.
  - destruct (Rle_dec _ _); lra.
Qed.

Lemma spawnInterval_bounds_witness :
  (0 <= 20 <= 40)%Z /\ spawnInterval 40 <= spawnInterval 20.
Proof.
  assert (H : (0 <= 20 <= 40)%Z) by lia.
  split; [exact H|].
  exact (proj1 (proj2 (spawnInterval_bounds 20 40 H))).
Defined.

(** ** Approach *)

Lemma distance_nonneg dx dy : 0 <= distance dx dy.
Proof. apply sqrt_pos. Qed.

Lemma distance_sqr dx dy :
  distance dx dy * distance dx dy = dx * dx + dy * dy.
Proof. unfold distance. apply sqrt_sqrt. nra. Qed.

Lemma abs_le_distance dx dy :
  Rabs dx <= distance dx dy /\ Rabs dy <= distance dx dy.
Proof.
  pose proof (distance_nonneg dx dy) as H0.
  pose proof (distance_sqr dx dy) as Hs.
  split; apply Rabs_le; split; nra.
Qed.

(** ** Impact within reach *)

Lemma arrived_within dx dy mv k :
  arrived (distance dx dy) mv = true -> mv < k -> 0 < k ->
  Rabs dx < k /\ Rabs dy < k.
Proof.
  intros H Hk H0. apply arrived_iff in H.
  destruct (abs_le_distance dx dy) as [Hx Hy].
  destruct H as [H|H]; split; lra.
Qed.

(** X8: when the frame's move distance is below 25, an arriving enemy lands
    within reach of the point it was aimed at: every city and every battery
    standing on its target is destroyed by the impact. *)
Theorem short_step_hits_target : forall d speedScale w e,
  arrived (distance (p_x (e_target e) - p_x (e_pos e))
                    (p_y (e_target e) - p_y (e_pos e)))
          (e_speed e * speedScale) = true ->
  e_speed e * speedScale < 25 ->
  let w' := fst (moveEnemy d speedScale w e) in
  (forall c, In c (cities w) -> c_pos c = e_target e ->
     In (mkCity (c_id c) (c_pos c) true) (cities w')) /\
  (forall b, In b (batteries w) -> b_pos b = e_target e ->
     In (mkBattery (b_id b) (b_pos b) (b_missiles b) (b_maxMissiles b) true)
        (batteries w')).
Proof.
  intros d ss w e Harr Hmv. cbv zeta.
  rewrite moveEnemy_arrive by assumption. simpl.
  split.
  - intros c Hin Hpos.
    destruct (arrived_within _ _ _ 25 Harr Hmv ltac:(lra)) as [Hx Hy].
    unfold impactCities. apply in_map_iff. exists c. split; [|assumption].
    rewrite (proj2 (near_iff 25 (c_pos c) (e_pos e))); [reflexivity|].
    rewrite Hpos. now split.
  - intros b Hin Hpos.
    destruct (arrived_within _ _ _ 35 Harr ltac:(lra) ltac:(lra)) as [Hx Hy].
    unfold impactBatteries. apply in_map_iff. exists b. split; [|assumption].
    rewrite (proj2 (near_iff 35 (b_pos b) (e_pos e))); [reflexivity|].
    rewrite Hpos. now split.
Qed.

Lemma enemyAbove3_arrived :
  arrived (distance (p_x (e_target enemyAbove3) - p_x (e_pos enemyAbove3))
                    (p_y (e_target enemyAbove3) - p_y (e_pos enemyAbove3)))
          (e_speed enemyAbove3 * 1) = true.
Proof. simpl. dist_is 3. unfold arrived. eval_cmp. reflexivity. Qed.

Lemma short_step_hits_target_witness :
  e_speed enemyAbove3 * 1 < 25 /\
  In (mkCity "c1" (mkPoint 200 570) true)
     (cities (fst (moveEnemy noDraws 1 (startGame LOW initialWorld)
                             enemyAbove3))).
Proof.
  assert (H : e_speed enemyAbove3 * 1 < 25) by (simpl; lra).
  split; [exact H|].
  exact (proj1 (short_step_hits_target noDraws 1 (startGame LOW initialWorld)
                  enemyAbove3 enemyAbove3_arrived H)
               (mkCity "c1" (mkPoint 200 570) false)
               (or_introl eq_refl) eq_refl).
Defined.

(** ** How long an explosion lasts *)

Lemma iter_shift {A : Type} (f : A -> A) n a :
  Nat.iter n f (f a) = Nat.iter (S n) f a.
Proof. induction n as [|n IH]; simpl; [reflexivity|]. now rewrite IH. Qed.

Lemma shrinking_retires : forall k exp,
  0 < x_growthRate exp -> x_active exp = true -> x_isShrinking exp = true ->
  x_radius exp <= INR k * (x_growthRate exp * (5 / 10)) ->
  exists n, x_active (Nat.iter n updateExplosion exp) = false.
Proof.
  induction k as [|k IH]; intros exp Hg Ha Hs Hr.
  - exists 1%nat. simpl.
    destruct (updateExplosion_shrinking exp Ha Hs) as (Er & _ & Hret).
    apply Hret. rewrite Er. simpl in Hr. lra.
  - destruct (updateExplosion_shrinking exp Ha Hs) as (Er & Es & Hret).
    destruct (x_active (updateExplosion exp)) eqn:Ea'.
    + assert (Hg' : x_growthRate (updateExplosion exp) = x_growthRate exp)
        by (unfold updateExplosion; break_if; reflexivity).
      destruct (IH (updateExplosion exp)) as [n Hn]; auto.
      * now rewrite Hg'.
      * rewrite Hg', Er. rewrite S_INR in Hr. lra.
      * exists (S n). now rewrite <- iter_shift.
    + now exists 1%nat.
Qed.

Lemma growing_retires : forall k exp,
  0 < x_growthRate exp -> x_active exp = true -> x_isShrinking exp = false ->
  x_maxRadius exp - x_radius exp <= INR k * x_growthRate exp ->
  exists n, x_active (Nat.iter n updateExplosion exp) = false.
Proof.
  induction k as [|k IH]; intros exp Hg Ha Hs Hr;
    destruct (updateExplosion_growing exp Ha Hs) as (Er & Hsh & Ha');
    assert (Hg' : x_growthRate (updateExplosion exp) = x_growthRate exp)
      by (unfold updateExplosion; break_if; reflexivity);
    assert (Hm' : x_maxRadius (updateExplosion exp) = x_maxRadius exp)
      by (unfold updateExplosion; break_if; reflexivity).
  - assert (Hs' : x_isShrinking (updateExplosion exp) = true).
    { apply Hsh. rewrite Er. simpl in Hr. lra. }
    destruct (INR_unbounded
                (x_radius (updateExplosion exp) /
                 (x_growthRate exp * (5 / 10)))) as [j Hj].
    destruct (shrinking_retires j (updateExplosion exp)) as [n Hn]; auto.
    + now rewrite Hg'.
    + rewrite Hg'.
      apply Rlt_le.
      apply (Rmult_lt_compat_r (x_growthRate exp * (5 / 10))) in Hj; [|lra].
      unfold Rdiv in Hj. rewrite Rmult_assoc, Rinv_l in Hj; lra.
    + exists (S n). now rewrite <- iter_shift.
  - destruct (x_isShrinking (updateExplosion exp)) eqn:Es'.
    + destruct (INR_unbounded
                  (x_radius (updateExplosion exp) /
                   (x_growthRate exp * (5 / 10)))) as [j Hj].
      destruct (shrinking_retires j (updateExplosion exp)) as [n Hn]; auto.
      * now rewrite Hg'.
      * rewrite Hg'.
        apply Rlt_le.
        apply (Rmult_lt_compat_r (x_growthRate exp * (5 / 10))) in Hj; [|lra].
        unfold Rdiv in Hj. rewrite Rmult_assoc, Rinv_l in Hj; lra.
      * exists (S n). now rewrite <- iter_shift.
    + destruct (IH (updateExplosion exp)) as [n Hn]; auto.
      * now rewrite Hg'.
      * rewrite Hg', Hm', Er. rewrite S_INR in Hr.
        assert (~ x_radius (updateExplosion exp) >= x_maxRadius exp).
        { intros X. apply Hsh in X. congruence. }
        lra.
      * exists (S n). now rewrite <- iter_shift.
Qed.

(** X9: an explosion whose growth rate is positive is retired after
    finitely many frames, whatever its radius, cap and phase. *)
Theorem explosion_retires : forall exp,
  0 < x_growthRate exp ->
  exists n, x_active (Nat.iter n updateExplosion exp) = false.
Proof.
  intros exp Hg.
  destruct (x_active exp) eqn:Ha; [|now exists 0%nat].
  destruct (x_isShrinking exp) eqn:Hs.
  - destruct (INR_unbounded
                (x_radius exp / (x_growthRate exp * (5 / 10)))) as [j Hj].
    apply (shrinking_retires j); auto.
    apply Rlt_le.
    apply (Rmult_lt_compat_r (x_growthRate exp * (5 / 10))) in Hj; [|lra].
    unfold Rdiv in Hj. rewrite Rmult_assoc, Rinv_l in Hj; lra.
  - destruct (INR_unbounded
                ((x_maxRadius exp - x_radius exp) / x_growthRate exp))
      as [j Hj].
    apply (growing_retires j); auto.
    apply Rlt_le.
    apply (Rmult_lt_compat_r (x_growthRate exp)) in Hj; [|lra].
    unfold Rdiv in Hj. rewrite Rmult_assoc, Rinv_l in Hj; lra.
Qed.

Lemma explosion_retires_witness :
  exists n,
    x_active (Nat.iter n updateExplosion
                (mkExplosion 0 (mkPoint 300 101) 0 50 96 3 false
                             COLORS.EXPLOSION true)) = false.
Proof.
  apply explosion_retires. simpl. lra.
Defined.

(** X10: an active, growing explosion below its cap whose growth rate is 0
    (one created in a frame of zero delta) is left exactly as it is by every
    update: it never grows, never shrinks and is never retired. *)
Theorem still_explosion_stays : forall exp n,
  x_growthRate exp = 0 -> x_active exp = true ->
  x_isShrinking exp = false -> x_radius exp < x_maxRadius exp ->
  Nat.iter n updateExplosion exp = exp.
Proof.
  intros exp n Hg Ha Hs Hr. induction n as [|n IH]; [reflexivity|].
  simpl. rewrite IH. unfold updateExplosion. rewrite Ha, Hs. simpl.
  rewrite leb_false by (rewrite Hg; lra).
  destruct exp; simpl in *. subst. f_equal. lra.
Qed.

Lemma still_explosion_stays_witness :
  In stillBlast (explosionsRef (update noDraws 1000 clickAtB1)) /\
  Nat.iter 100 updateExplosion stillBlast = stillBlast.
Proof.
  split; [rewrite firstFrame_explosions; now left|].
  apply still_explosion_stays; simpl; try reflexivity; lra.
Defined.

(** ** Spawning *)

(** X5: when the accumulated time exceeds the interval, some target still
    stands and the draws lie in [0, 1), the spawn block resets the
    accumulator and appends exactly one active enemy: it starts at height
    -20 over the playfield's width, is aimed at a standing city or battery,
    and its speed is between 0.8 and 1.4 times the mode's multiplier. *)
Theorem spawn_well_formed : forall d config dt cs bs w,
  0 <= d_target d < 1 -> 0 <= d_posX d < 1 -> 0 <= d_speed d < 1 ->
  0 < speedMult config ->
  spawnTimerRef w + dt > spawnInterval (scoreRef w) ->
  targetOptions cs bs <> [] ->
  let w' := spawnEnemies d config dt cs bs w in
  spawnTimerRef w' = 0 /\
  exists e,
    enemiesRef w' = enemiesRef w ++ [e] /\ e_active e = true /\
    p_y (e_pos e) = -20 /\ 0 <= p_x (e_pos e) < GAME_WIDTH /\
    ((exists c, In c cs /\ c_destroyed c = false /\ e_target e = c_pos c) \/
     (exists b, In b bs /\ b_destroyed b = false /\ e_target e = b_pos b)) /\
    8 / 10 * speedMult config <= e_speed e < 14 / 10 * speedMult config.
Proof.
  intros d config dt cs bs w Ht Hx Hv Hmult Hfire Hne. cbv zeta.
  destruct (spawn_index_in_range (targetOptions cs bs) (d_target d) Ht Hne)
    as [target Htarget].
  rewrite (spawnEnemies_fire d config dt cs bs w target) by (assumption || lra).
  simpl. split; [reflexivity|].
  eexists. split; [reflexivity|]. simpl.
  split; [reflexivity|]. split; [reflexivity|].
  split; [unfold GAME_WIDTH; lra|]. split.
  - unfold at_index in Htarget. destruct (_ <? 0)%Z; [discriminate|].
    apply nth_error_In in Htarget. unfold targetOptions in Htarget.
    apply in_app_or in Htarget. destruct Htarget as [H|H].
    + left. apply in_map_iff in H. destruct H as (c & <- & Hc).
      apply filter_In in Hc. destruct Hc as [Hc Hd].
      exists c. repeat split; auto. now apply negb_true_iff.
    + right. apply in_map_iff in H. destruct H as (b & <- & Hb).
      apply filter_In in Hb. destruct Hb as [Hb Hd].
      exists b. repeat split; auto. now apply negb_true_iff.
  - split; nra.
Qed.

Lemma spawn_well_formed_witness :
  spawnTimerRef
    (spawnEnemies halfDraws (MODE_CONFIGS LOW) 1990
       INITIAL_CITIES INITIAL_BATTERIES scored20) = 0.
Proof.
  refine (proj1 (spawn_well_formed halfDraws (MODE_CONFIGS LOW) 1990
                   INITIAL_CITIES INITIAL_BATTERIES scored20 _ _ _ _ _ _));
    simpl; try lra; try discriminate.
  unfold spawnInterval, Rmax. destruct (Rle_dec _ _); lra.
Defined.

(** ** Frames outside a session, and the first frame of one *)

Lemma set_lastTimeRef_same w : set_lastTimeRef (lastTimeRef w) w = w.
Proof. now destruct w. Qed.

Lemma set_lastTimeRef_twice t t' w :
  set_lastTimeRef t' (set_lastTimeRef t w) = set_lastTimeRef t' w.
Proof. reflexivity. Qed.

Lemma step_idle ev w :
  onCanvas ev = true -> gs_status (gameState w) <> PLAYING ->
  exists t, step ev w = set_lastTimeRef t w.
Proof.
  intros Hev Hst. destruct ev as [d time|r cv p| | |]; try discriminate.
  - exists time. simpl. unfold update. simpl gameState.
    destruct (gs_status (gameState w)); try reflexivity. congruence.
  - exists (lastTimeRef w). rewrite set_lastTimeRef_same. simpl.
    unfold handleCanvasClick.
    destruct (gs_status (gameState w)); try reflexivity. congruence.
Qed.

(** X3: while the status is not PLAYING, animation frames and pointer
    events on the canvas, in any number and order, change nothing but the
    timestamp of the last frame: nothing moves, spawns, fires or scores. *)
Theorem idle_outside_play : forall evs w,
  gs_status (gameState w) <> PLAYING ->
  forallb onCanvas evs = true ->
  exists t, play evs w = set_lastTimeRef t w.
Proof.
  induction evs as [|ev evs IH]; intros w Hst Hev.
  - exists (lastTimeRef w). now rewrite set_lastTimeRef_same.
  - simpl in Hev. apply andb_true_iff in Hev. destruct Hev as [H1 H2].
    destruct (step_idle ev w H1 Hst) as [t Et].
    unfold play. simpl. fold (play evs (step ev w)). rewrite Et.
    destruct (IH (set_lastTimeRef t w)) as [t' Et']; auto.
    exists t'. now rewrite Et', set_lastTimeRef_twice.
Qed.

Lemma idle_outside_play_witness :
  exists t,
    play [Frame noDraws 16; Click 0 (Some unitCanvas) (mkPointer 100 560);
          Frame noDraws 33] initialWorld
    = set_lastTimeRef t initialWorld.
Proof.
  apply idle_outside_play; [discriminate | reflexivity].
Defined.

(** X12: the first frame after a start only primes the clock: the
    timestamp cell is still 0, so the frame's delta is 0 and the world it
    leaves is the fresh one with the timestamp recorded. *)
Theorem first_frame_primes : forall d time mode w,
  update d time (startGame mode w) = set_lastTimeRef time (startGame mode w).
Proof.
  intros d time mode w. rewrite update_playing_eq by reflexivity.
  assert (Hd : deltaOf time (startGame mode w) = 0).
  { unfold deltaOf. simpl. rewrite eqb_true by reflexivity. lra. }
  rewrite Hd. unfold advance.
  rewrite spawnEnemies_quiet.
  2:{ simpl. unfold spawnInterval, Rmax. destruct (Rle_dec _ _); lra. }
  unfold updateExplosions, updateEnemies, updateMissiles, cleanup,
    checkGameOver. simpl.
  cells. f_equal. simpl. lra.
Qed.

(** ** What scores *)

Lemma forEach_inv_In {S A : Type} (P : S -> Prop) (body : S -> A -> S * A) l :
  (forall s a, In a l -> P s -> P (fst (body s a))) ->
  forall s, P s -> P (fst (forEach body s l)).
Proof.
  induction l as [|a l IH]; intros Hb s Hs; simpl; [assumption|].
  pose proof (Hb s a (or_introl eq_refl) Hs) as H1.
  destruct (body s a) as [s1 a1]. simpl in H1.
  assert (IH' : P (fst (forEach body s1 l))).
  { apply IH; [|assumption]. intros s' a' Hin. apply Hb. now right. }
  destruct (forEach body s1 l) as [s2 l2]. exact IH'.
Qed.

Lemma harmless_misses e exp : harmless exp -> blastHits e exp = false.
Proof.
  unfold harmless, blastHits. intros [H|H].
  - apply String.eqb_neq in H. now rewrite H.
  - rewrite H. now rewrite andb_false_r.
Qed.

Lemma fold_collide_harmless xs : forall w e,
  Forall harmless xs -> fold_left collide xs (w, e) = (w, e).
Proof.
  induction xs as [|exp xs IH]; intros w e H; cbn [fold_left];
    [reflexivity|].
  inversion H; subst.
  rewrite collide_miss by (now apply harmless_misses). now apply IH.
Qed.

Lemma updateEnemy_harmless d ss s0 w e :
  Forall harmless (explosionsRef w) /\ scoreRef w = s0 ->
  Forall harmless (explosionsRef (fst (updateEnemy d ss w e))) /\
  scoreRef (fst (updateEnemy d ss w e)) = s0.
Proof.
  intros [Hh Hs]. unfold updateEnemy.
  destruct (negb (e_active e)); [now split|].
  assert (H1 : Forall harmless (explosionsRef (fst (moveEnemy d ss w e))) /\
               scoreRef (fst (moveEnemy d ss w e)) = s0).
  { unfold moveEnemy. destruct (arrived _ _); simpl; [|now split].
    split; [|assumption]. apply Forall_app. split; [assumption|].
    constructor; [|constructor]. left. simpl. discriminate. }
  destruct (moveEnemy d ss w e) as [w1 e1]. simpl in H1.
  rewrite fold_collide_harmless by apply H1. exact H1.
Qed.

Lemma advance_harmless d dt w :
  Forall (fun m => m_active m = false) (missilesRef w) ->
  Forall harmless (explosionsRef w) ->
  scoreRef (advance d dt w) = scoreRef w.
Proof.
  intros Hm Hh. unfold advance, updateExplosions, updateEnemies, updateMissiles.
  set (config := MODE_CONFIGS _). set (ss := dt / (1667 / 100)).
  set (w1 := spawnEnemies _ _ _ _ _ _).
  destruct (spawnEnemies_cells d config dt (cities w) (batteries w) w)
    as (_ & _ & _ & Es & Em & _). fold w1 in Es, Em.
  assert (H1 : Forall harmless (explosionsRef w1) /\ scoreRef w1 = scoreRef w).
  { split; [|assumption]. unfold w1. now rewrite spawnEnemies_explosions. }
  pose proof (forEach_inv_In
                (fun s => Forall harmless (explosionsRef s) /\
                          scoreRef s = scoreRef w)
                (updateMissile d config ss) (missilesRef w1)) as H2.
  specialize (H2 (fun s a Hin Hs =>
    ltac:(rewrite Em in Hin; rewrite Forall_forall in Hm;
          unfold updateMissile; rewrite (Hm a Hin); exact Hs)) w1 H1).
  destruct (forEach (updateMissile d config ss) w1 (missilesRef w1))
    as [w2 ms]. simpl in H2.
  pose proof (forEach_inv
                (fun s => Forall harmless (explosionsRef s) /\
                          scoreRef s = scoreRef w)
                (updateEnemy d ss)
                (fun s a => updateEnemy_harmless d ss (scoreRef w) s a)
                (enemiesRef (set_missilesRef ms w2)) (set_missilesRef ms w2)
                H2) as H4.
  destruct (forEach (updateEnemy d ss) (set_missilesRef ms w2)
                    (enemiesRef (set_missilesRef ms w2))) as [w4 es].
  simpl in H4. simpl. apply H4.
Qed.

(** X11: only player blasts score.  If no missile is in flight and every
    explosion on the field is an enemy-impact one or retired, then a frame
    leaves the score as it is, whatever the enemies do and wherever they
    land. *)
Theorem no_blast_no_score : forall d time w,
  Forall (fun m => m_active m = false) (missilesRef w) ->
  Forall harmless (explosionsRef w) ->
  scoreRef (update d time w) = scoreRef w.
Proof.
  intros d time w Hm Hh. unfold update.
  destruct (negb _); [reflexivity|]. unfold simulate.
  destruct (checkGameOver_cells (batteries (set_lastTimeRef time w))
              (cleanup (advance d (deltaOf time w) (set_lastTimeRef time w))))
    as (-> & _).
  rewrite cleanup_score. now apply (advance_harmless d _ (set_lastTimeRef time w)).
Qed.

Lemma no_blast_no_score_witness :
  let w := update noDraws lateTick lateWorld in
  List.length (explosionsRef w) = 2%nat /\
  scoreRef (update noDraws (lateTick + 17) w) = scoreRef w.
Proof.
  cbv zeta. split; [now rewrite lateFrame_eq|].
  apply no_blast_no_score; rewrite lateFrame_eq; simpl.
  - constructor.
  - constructor; [left; simpl; discriminate|].
    constructor; [left; simpl; discriminate|]. constructor.
Defined.

(** ** Losing *)

(** X13: a frame that begins with a battery standing never ends in LOST,
    even if that battery falls during the frame and whatever has happened
    to the cities: the check reads the batteries the frame started with and
    never looks at the cities. *)
Theorem standing_battery_not_lost : forall d time w b,
  gs_status (gameState w) = PLAYING ->
  In b (batteries w) -> b_destroyed b = false ->
  gs_status (gameState (update d time w)) <> LOST.
Proof.
  intros d time w b Hp Hin Hb.
  destruct (update_playing d time w Hp) as (wc & -> & Hpc & _).
  destruct (checkGameOver_status (batteries w) wc Hpc) as (_ & Hlost).
  intros X. apply Hlost in X. destruct X as (_ & Hall & _).
  rewrite Forall_forall in Hall. specialize (Hall b Hin). congruence.
Qed.

Lemma standing_battery_not_lost_witness :
  gs_status (gameState (update noDraws lateTick lateWorld)) <> LOST.
Proof.
  apply (standing_battery_not_lost noDraws lateTick lateWorld
           (mkBattery "b1" (mkPoint 100 560) 20 20 false));
    [reflexivity | now left | reflexivity].
Defined.

(** ** What a frame can add or drop *)

Lemma forEach_related {S A : Type} (Q : A -> A -> Prop)
  (body : S -> A -> S * A) :
  (forall s a, Q a (snd (body s a))) ->
  forall l s, Forall2 Q l (snd (forEach body s l)).
Proof.
  intros Hb l. induction l as [|a l IH]; intros s; simpl; [constructor|].
  specialize (Hb s a). destruct (body s a) as [s1 a1]. simpl in Hb.
  specialize (IH s1). destruct (forEach body s1 l) as [s2 l2].
  constructor; assumption.
Qed.

(** What one step leaves of a missile: everything but position and flag. *)
Lemma updateMissile_same d config ss w m :
  let m' := snd (updateMissile d config ss w m) in
  m_id m' = m_id m /\ m_startPos m' = m_startPos m /\
  m_target m' = m_target m /\ m_speed m' = m_speed m.
Proof. unfold updateMissile. break_if; simpl; auto. Qed.

Lemma updateEnemy_missiles d ss w e :
  missilesRef (fst (updateEnemy d ss w e)) = missilesRef w.
Proof.
  unfold updateEnemy. destruct (negb (e_active e)); [reflexivity|].
  assert (H : missilesRef (fst (moveEnemy d ss w e)) = missilesRef w)
    by (unfold moveEnemy; break_if; reflexivity).
  destruct (moveEnemy d ss w e) as [w1 e1]. simpl in H. rewrite <- H.
  apply (fold_collide_inv (fun s => missilesRef s = missilesRef w1));
    [intros; assumption | reflexivity].
Qed.

Lemma Forall2_length_eq {A B : Type} (Q : A -> B -> Prop) l l' :
  Forall2 Q l l' -> List.length l' = List.length l.
Proof. induction 1; simpl; auto. Qed.

Lemma filter_length_le {A : Type} (f : A -> bool) l :
  (List.length (filter f l) <= List.length l)%nat.
Proof.
  induction l as [|a l IH]; simpl; [lia|]. destruct (f a); simpl; lia.
Qed.

Lemma advance_lists d dt w :
  Forall2 (fun m m' => m_id m' = m_id m /\ m_startPos m' = m_startPos m /\
                       m_target m' = m_target m /\ m_speed m' = m_speed m)
          (missilesRef w) (missilesRef (advance d dt w)) /\
  (List.length (enemiesRef (advance d dt w))
   <= S (List.length (enemiesRef w)))%nat.
Proof.
  unfold advance, updateExplosions, updateEnemies, updateMissiles.
  set (config := MODE_CONFIGS _). set (ss := dt / (1667 / 100)).
  set (w1 := spawnEnemies _ _ _ _ _ _).
  destruct (spawnEnemies_cells d config dt (cities w) (batteries w) w)
    as (_ & _ & _ & _ & Em & _). fold w1 in Em.
  assert (He1 : (List.length (enemiesRef w1) <= S (List.length (enemiesRef w)))%nat).
  { destruct (spawnEnemies_timer d config dt (cities w) (batteries w) w)
      as (_ & _ & _ & [H|(e & H & _)]); fold w1 in H; rewrite H.
    - lia.
    - rewrite length_app. simpl. lia. }
  pose proof (forEach_related
                (fun m m' => m_id m' = m_id m /\ m_startPos m' = m_startPos m /\
                             m_target m' = m_target m /\ m_speed m' = m_speed m)
                (updateMissile d config ss)
                (fun s a => updateMissile_same d config ss s a)
                (missilesRef w1) w1) as Hms.
  pose proof (forEach_inv (fun s => enemiesRef s = enemiesRef w1)
                (updateMissile d config ss)
                (fun s a Hs => eq_trans
                   (proj1 (proj2 (proj2 (proj2 (proj2
                      (updateMissile_cells d config ss s a)))))) Hs)
                (missilesRef w1) w1 eq_refl) as Hes.
  destruct (forEach (updateMissile d config ss) w1 (missilesRef w1))
    as [w2 ms]. simpl in Hms, Hes.
  pose proof (forEach_inv (fun s => missilesRef s = ms)
                (updateEnemy d ss)
                (fun s a Hs => eq_trans (updateEnemy_missiles d ss s a) Hs)
                (enemiesRef (set_missilesRef ms w2)) (set_missilesRef ms w2)
                eq_refl) as Hm4.
  pose proof (forEach_related (fun _ _ : Enemy => True) (updateEnemy d ss)
                (fun _ _ => I)
                (enemiesRef (set_missilesRef ms w2)) (set_missilesRef ms w2))
    as Hlen.
  apply Forall2_length_eq in Hlen.
  destruct (forEach (updateEnemy d ss) (set_missilesRef ms w2)
                    (enemiesRef (set_missilesRef ms w2))) as [w4 es].
  simpl in Hm4, Hlen. simpl. rewrite Hm4. split.
  - now rewrite <- Em.
  - rewrite Hlen. simpl. rewrite Hes. exact He1.
Qed.

(** X14: a frame of a PLAYING world never puts a missile in flight: every
    missile it keeps is active and is one of the missiles it started with,
    with the same id, start, target and speed; and it adds at most one
    enemy. *)
Theorem frame_entity_counts : forall d time w,
  gs_status (gameState w) = PLAYING ->
  let w' := update d time w in
  Forall (fun m => m_active m = true) (missilesRef w') /\
  (forall m', In m' (missilesRef w') ->
     exists m, In m (missilesRef w) /\ m_id m' = m_id m /\
               m_startPos m' = m_startPos m /\ m_target m' = m_target m /\
               m_speed m' = m_speed m) /\
  (List.length (missilesRef w') <= List.length (missilesRef w))%nat /\
  (List.length (enemiesRef w') <= S (List.length (enemiesRef w)))%nat.
Proof.
  intros d time w Hp. cbv zeta.
  rewrite update_playing_eq by assumption.
  destruct (checkGameOver_cells (batteries w)
              (cleanup (advance d (deltaOf time w) (set_lastTimeRef time w))))
    as (_ & _ & _ & -> & -> & _).
  destruct (advance_lists d (deltaOf time w) (set_lastTimeRef time w))
    as [Hms Hes].
  simpl in Hms, Hes. simpl.
  set (ms := missilesRef (advance d (deltaOf time w) (set_lastTimeRef time w)))
    in *.
  set (es := enemiesRef (advance d (deltaOf time w) (set_lastTimeRef time w)))
    in *.
  split; [|split; [|split]].
  - apply Forall_forall. intros m Hm. now apply filter_In in Hm.
  - intros m' Hin. apply filter_In in Hin. destruct Hin as [Hin _].
    clear -Hms Hin. induction Hms as [|m0 m0' l l' H _ IH];
      [contradiction|].
    destruct Hin as [<-|Hin].
    + exists m0. split; [now left|]. exact H.
    + destruct (IH Hin) as (m & Hm & Hrest). exists m.
      split; [now right|]. exact Hrest.
  - rewrite <- (Forall2_length_eq _ _ _ Hms). apply filter_length_le.
  - etransitivity; [apply filter_length_le|]. exact Hes.
Qed.

Lemma frame_entity_counts_witness :
  Forall (fun m => m_active m = true)
         (missilesRef (update noDraws nextTick doubleBlast)).
Proof.
  exact (proj1 (frame_entity_counts noDraws nextTick doubleBlast eq_refl)).
Defined.

(** ** Sessions through the overlay *)

Lemma update_status_idle d time w :
  gs_status (gameState w) <> PLAYING ->
  gs_status (gameState (update d time w)) = gs_status (gameState w).
Proof.
  intros H. unfold update. simpl gameState.
  destruct (gs_status (gameState w)) eqn:E; simpl; try exact E.
  congruence.
Qed.

Lemma click_gameState r cv ev w :
  gameState (handleCanvasClick r cv ev w) = gameState w.
Proof.
  unfold handleCanvasClick, launch. break_if; try reflexivity.
  destruct cv; [|reflexivity]. now destruct (bestBattery _ _).
Qed.

(** X15: the only callback that starts a session is a mode button, and
    the session it starts is fresh: if a callback takes a world that is not
    PLAYING to one that is, it is a mode button and the new world is the one
    [startGame] builds from scratch, whatever was left of the last session. *)
Theorem play_begins_fresh : forall ev w,
  gs_status (gameState w) <> PLAYING ->
  gs_status (gameState (step ev w)) = PLAYING ->
  exists mode,
    ev = PressMode mode /\ step ev w = startGame mode initialWorld.
Proof.
  intros ev w Hn Hp. destruct ev as [d time|r cv p|mode| |]; simpl in *.
  - rewrite update_status_idle in Hp by assumption. congruence.
  - rewrite click_gameState in Hp. congruence.
  - exists mode. now split.
  - discriminate.
  - discriminate.
Qed.

Lemma play_begins_fresh_witness :
  exists mode,
    PressMode HIGH = PressMode mode /\
    step (PressMode HIGH) initialWorld = startGame mode initialWorld.
Proof.
  apply play_begins_fresh; [discriminate | reflexivity].
Defined.

(** ** The panel *)

Lemma update_score_shown d time w :
  gs_score (gameState w) = scoreRef w ->
  gs_score (gameState (update d time w)) = scoreRef (update d time w).
Proof.
  intros H. unfold update. destruct (negb _); [exact H|]. unfold simulate.
  destruct (checkGameOver_cells (batteries (set_lastTimeRef time w))
              (cleanup (advance d (deltaOf time w) (set_lastTimeRef time w))))
    as (-> & _ & _ & _ & _ & _ & _ & _ & -> & _).
  destruct (advance_inv (fun s => gs_score (gameState s) = scoreRef s)
              d (deltaOf time w) (set_lastTimeRef time w))
    as (w5 & -> & H5); try (intros; assumption).
  - destruct (spawnEnemies_cells d
                (MODE_CONFIGS (gs_mode (gameState (set_lastTimeRef time w))))
                (deltaOf time w) (cities (set_lastTimeRef time w))
                (batteries (set_lastTimeRef time w)) (set_lastTimeRef time w))
      as (-> & _ & _ & -> & _). exact H.
  - intros w' m Hw'.
    destruct (updateMissile_cells d
                (MODE_CONFIGS (gs_mode (gameState (set_lastTimeRef time w))))
                (deltaOf time w / (1667 / 100)) w' m)
      as (-> & _ & _ & -> & _). exact Hw'.
  - intros w' e Hw'. unfold updateEnemy.
    destruct (negb (e_active e)); [exact Hw'|].
    assert (H1 : gs_score (gameState (fst (moveEnemy d
                   (deltaOf time w / (1667 / 100)) w' e)))
                 = scoreRef (fst (moveEnemy d
                   (deltaOf time w / (1667 / 100)) w' e)))
      by (unfold moveEnemy; break_if; exact Hw').
    destruct (moveEnemy d (deltaOf time w / (1667 / 100)) w' e) as [w1 e1].
    apply (fold_collide_inv (fun s => gs_score (gameState s) = scoreRef s));
      [reflexivity | exact H1].
Qed.

(** X16: however frames, pointer events and overlay buttons follow one
    another after mount, the score the panel shows is the score the
    simulation counts. *)
Theorem shown_score_is_score : forall evs,
  gs_score (gameState (play evs initialWorld))
  = scoreRef (play evs initialWorld).
Proof.
  intros evs. unfold play.
  assert (G : forall w, gs_score (gameState w) = scoreRef w ->
                gs_score (gameState (fold_left (fun w' ev => step ev w') evs w))
                = scoreRef (fold_left (fun w' ev => step ev w') evs w)).
  { induction evs as [|ev evs IH]; intros w Hw; simpl; [exact Hw|].
    apply IH. destruct ev as [d time|r cv p|mode| |]; simpl.
    - now apply update_score_shown.
    - now rewrite click_gameState, click_score.
    - reflexivity.
    - exact Hw.
    - exact Hw. }
  now apply G.
Qed.

Lemma click_gauged r cv ev w : gauged w -> gauged (handleCanvasClick r cv ev w).
Proof.
  intros [Hst Hmax]. split.
  - unfold handleCanvasClick. destruct (negb _); [assumption|].
    destruct cv; [|assumption]. now apply launch_stocked.
  - rewrite <- Hmax. destruct (click_wear r cv ev w) as [H _].
    clear -H. induction H as [|b b' l l' Hb _ IH]; simpl; [reflexivity|].
    destruct Hb as (_ & _ & -> & _). now rewrite IH.
Qed.

Lemma update_gauged d time w : gauged w -> gauged (update d time w).
Proof.
  intros [[Hid Hst] Hmax]. destruct (update_wear d time w) as [Hw _].
  split; [split|].
  - rewrite <- Hid. apply (Forall2_ids b_wear); [|assumption].
    unfold b_wear. tauto.
  - clear Hid Hmax. induction Hw as [|b b' l l' Hbb _ IHw]; [constructor|].
    inversion Hst; subst. constructor; [|auto].
    destruct Hbb as (_ & _ & -> & -> & _). assumption.
  - rewrite <- Hmax. clear -Hw.
    induction Hw as [|b b' l l' Hb _ IH]; simpl; [reflexivity|].
    destruct Hb as (_ & _ & _ & -> & _). now rewrite IH.
Qed.

Lemma fresh_gauged bs :
  bs = INITIAL_BATTERIES \/
  bs = map (fun b => mkBattery (b_id b) (b_pos b) (b_maxMissiles b)
                               (b_maxMissiles b) false) INITIAL_BATTERIES ->
  forall w, batteries w = bs -> gauged w.
Proof.
  intros H w E. unfold gauged, stocked. rewrite E.
  destruct H as [-> | ->]; simpl; repeat split;
    repeat constructor; simpl; lia.
Qed.

Lemma play_gauged evs : forall w, gauged w -> gauged (play evs w).
Proof.
  unfold play. induction evs as [|ev evs IH]; intros w Hw; simpl;
    [exact Hw|].
  apply IH. destruct ev as [d time|r cv p|mode| |]; simpl.
  - now apply update_gauged.
  - now apply click_gauged.
  - apply (fresh_gauged _ (or_intror eq_refl)). reflexivity.
  - exact Hw.
  - apply (fresh_gauged _ (or_introl eq_refl)). reflexivity.
Qed.

(** X17: however frames, pointer events and overlay buttons follow one
    another after mount, every battery on the panel has a positive
    capacity, a stock between 0 and that capacity, and hence an ammunition
    bar between 0 and 100 percent; the batteries together never hold more
    than 80 missiles. *)
Theorem ammo_gauge_in_range : forall evs b,
  In b (batteries (play evs initialWorld)) ->
  (0 < b_maxMissiles b)%Z /\
  (0 <= b_missiles b <= b_maxMissiles b)%Z /\
  0 <= ammoGauge b <= 100 /\
  (0 <= totalAmmo (batteries (play evs initialWorld)) <= 80)%Z.
Proof.
  intros evs b Hin.
  assert (Hg : gauged (play evs initialWorld)).
  { apply play_gauged. apply (fresh_gauged _ (or_introl eq_refl)).
    reflexivity. }
  destruct Hg as [[_ Hst] Hmax].
  set (bs := batteries (play evs initialWorld)) in *.
  assert (Hcap : (0 < b_maxMissiles b)%Z).
  { assert (X : In (b_maxMissiles b) (map b_maxMissiles bs))
      by (now apply in_map).
    rewrite Hmax in X. simpl in X. intuition lia. }
  assert (Hb : (0 <= b_missiles b <= b_maxMissiles b)%Z).
  { rewrite Forall_forall in Hst. now apply Hst. }
  split; [assumption|]. split; [assumption|]. split.
  - unfold ammoGauge.
    assert (H0 : 0 < IZR (b_maxMissiles b)) by (now apply IZR_lt).
    assert (H1 : 0 <= IZR (b_missiles b)) by (apply IZR_le; lia).
    assert (H2 : IZR (b_missiles b) <= IZR (b_maxMissiles b))
      by (apply IZR_le; lia).
    assert (H3 : 0 <= IZR (b_missiles b) / IZR (b_maxMissiles b) <= 1).
    { split.
      - apply Rmult_le_pos; [assumption|]. apply Rlt_le.
        now apply Rinv_0_lt_compat.
      - apply (Rmult_le_reg_r (IZR (b_maxMissiles b))); [assumption|].
        unfold Rdiv. rewrite Rmult_assoc, Rinv_l; lra. }
    lra.
  - clear Hin Hcap Hb b.
    destruct bs as [|b1 [|b2 [|b3 [|b4 bs]]]]; simpl in Hmax;
      try discriminate.
    injection Hmax as M1 M2 M3.
    inversion Hst as [|? ? H1 Hst1]; subst.
    inversion Hst1 as [|? ? H2 Hst2]; subst.
    inversion Hst2 as [|? ? H3 _]; subst.
    simpl. lia.
Qed.

Lemma ammo_gauge_in_range_witness :
  0 <= ammoGauge (mkBattery "b2" (mkPoint 400 560) 40 40 false) <= 100.
Proof.
  refine (proj1 (proj2 (proj2
            (ammo_gauge_in_range [PressMode LOW] _ _)))).
  simpl. right. now left.
Defined.

(** ** Where a pointer event aims *)

(** X18: during play, a pointer event inside the canvas's on-screen
    rectangle is resolved to a point inside the canvas's own coordinate
    range, and the handler does exactly what a launch toward that point
    does. *)
Theorem click_inside_playfield : forall r cv ev w,
  gs_status (gameState w) = PLAYING ->
  0 < rect_width cv -> 0 < rect_height cv ->
  0 <= cv_width cv -> 0 <= cv_height cv ->
  rect_left cv <= clientX ev <= rect_left cv + rect_width cv ->
  rect_top cv <= clientY ev <= rect_top cv + rect_height cv ->
  exists p,
    handleCanvasClick r (Some cv) ev w = launch r p w /\
    0 <= p_x p <= cv_width cv /\ 0 <= p_y p <= cv_height cv.
Proof.
  intros r cv ev w Hp Hw Hh Hcw Hch Hx Hy.
  unfold handleCanvasClick. rewrite Hp. simpl.
  eexists. split; [reflexivity|]. simpl.
  assert (Fx : 0 <= (clientX ev - rect_left cv) / rect_width cv <= 1).
  { split.
    - apply Rmult_le_pos; [lra|]. apply Rlt_le. now apply Rinv_0_lt_compat.
    - apply (Rmult_le_reg_r (rect_width cv)); [assumption|].
      unfold Rdiv. rewrite Rmult_assoc, Rinv_l; lra. }
  assert (Fy : 0 <= (clientY ev - rect_top cv) / rect_height cv <= 1).
  { split.
    - apply Rmult_le_pos; [lra|]. apply Rlt_le. now apply Rinv_0_lt_compat.
    - apply (Rmult_le_reg_r (rect_height cv)); [assumption|].
      unfold Rdiv. rewrite Rmult_assoc, Rinv_l; lra. }
  replace ((clientX ev - rect_left cv) * (cv_width cv / rect_width cv))
    with ((clientX ev - rect_left cv) / rect_width cv * cv_width cv)
    by (field; lra).
  replace ((clientY ev - rect_top cv) * (cv_height cv / rect_height cv))
    with ((clientY ev - rect_top cv) / rect_height cv * cv_height cv)
    by (field; lra).
  split; split; nra.
Qed.

Lemma click_inside_playfield_witness :
  exists p,
    handleCanvasClick 0 (Some unitCanvas) (mkPointer 100 560)
                      (startGame LOW initialWorld)
    = launch 0 p (startGame LOW initialWorld) /\
    0 <= p_x p <= cv_width unitCanvas /\ 0 <= p_y p <= cv_height unitCanvas.
Proof.
  apply click_inside_playfield; simpl; try reflexivity; lra.
Defined.

(** ** What the cells hold between callbacks *)

Lemma click_lists r cv ev w :
  enemiesRef (handleCanvasClick r cv ev w) = enemiesRef w /\
  explosionsRef (handleCanvasClick r cv ev w) = explosionsRef w /\
  (missilesRef (handleCanvasClick r cv ev w) = missilesRef w \/
   exists m, missilesRef (handleCanvasClick r cv ev w) = missilesRef w ++ [m]
             /\ m_active m = true).
Proof.
  unfold handleCanvasClick, launch. destruct (negb _); [auto|].
  destruct cv; [|auto]. destruct (bestBattery _ _); [|auto].
  simpl. repeat split. right. eexists. split; reflexivity.
Qed.

Lemma update_pruned d time w : pruned w -> pruned (update d time w).
Proof.
  intros Hw. destruct (gs_status (gameState w)) eqn:E.
  2:{ destruct (update_playing d time w E)
        as (wc & -> & _ & Hm & He & Hx & _).
      destruct (checkGameOver_cells (batteries w) wc)
        as (_ & _ & _ & Em & Ee & Ex & _).
      unfold pruned. rewrite Em, Ee, Ex. auto. }
  all: unfold update; simpl gameState; rewrite E; exact Hw.
Qed.

(** X19: between callbacks the three entity lists never hold a retired
    entity, however frames, pointer events and overlay buttons follow one
    another after mount; the [active] guards that open the three loops
    therefore never fire. *)
Theorem cells_hold_active_only : forall evs,
  Forall (fun m => m_active m = true) (missilesRef (play evs initialWorld)) /\
  Forall (fun e => e_active e = true) (enemiesRef (play evs initialWorld)) /\
  Forall (fun exp => x_active exp = true)
         (explosionsRef (play evs initialWorld)).
Proof.
  intros evs. change (pruned (play evs initialWorld)).
  assert (G : forall w, pruned w -> pruned (play evs w)).
  { unfold play. induction evs as [|ev evs IH]; intros w Hw; simpl;
      [exact Hw|].
    apply IH. destruct ev as [d time|r cv p|mode| |]; simpl.
    - now apply update_pruned.
    - destruct Hw as (Hm & He & Hx).
      destruct (click_lists r cv p w) as (Ee & Ex & Em).
      unfold pruned. rewrite Ee, Ex. repeat split; auto.
      destruct Em as [->|(m & -> & Ha)]; [assumption|].
      apply Forall_app. split; [assumption|]. now constructor.
    - repeat split; constructor.
    - exact Hw.
    - exact Hw. }
  apply G. repeat split; constructor.
Qed.

(** ** Where enemies are aimed *)

Lemma updateEnemy_target d ss w e :
  e_target (snd (updateEnemy d ss w e)) = e_target e.
Proof.
  unfold updateEnemy. destruct (negb (e_active e)); [reflexivity|].
  assert (H : e_target (snd (moveEnemy d ss w e)) = e_target e)
    by (unfold moveEnemy; break_if; reflexivity).
  destruct (moveEnemy d ss w e) as [w1 e1]. simpl in H.
  destruct (fold_collide_spec (explosionsRef w1) w1 e1) as (_ & _ & Ht & _).
  now rewrite Ht.
Qed.

Lemma targetOptions_layout cs bs p :
  map c_pos cs = map c_pos INITIAL_CITIES ->
  map b_pos bs = map b_pos INITIAL_BATTERIES ->
  In p (targetOptions cs bs) -> In p layoutPoints.
Proof.
  intros Hc Hb Hin. unfold targetOptions in Hin. unfold layoutPoints.
  rewrite <- Hc, <- Hb. apply in_app_or in Hin. apply in_or_app.
  destruct Hin as [H|H]; [left|right];
    apply in_map_iff in H; destruct H as (a & <- & Ha);
    apply filter_In in Ha; apply in_map; tauto.
Qed.

Lemma advance_enemies d dt w :
  map c_pos (cities w) = map c_pos INITIAL_CITIES ->
  map b_pos (batteries w) = map b_pos INITIAL_BATTERIES ->
  Forall (fun e => In (e_target e) layoutPoints) (enemiesRef w) ->
  Forall (fun e => In (e_target e) layoutPoints) (enemiesRef (advance d dt w)).
Proof.
  intros Hc Hb He.
  unfold advance, updateExplosions, updateEnemies, updateMissiles.
  set (config := MODE_CONFIGS _). set (ss := dt / (1667 / 100)).
  set (w1 := spawnEnemies _ _ _ _ _ _).
  assert (H1 : Forall (fun e => In (e_target e) layoutPoints) (enemiesRef w1)).
  { destruct (spawnEnemies_timer d config dt (cities w) (batteries w) w)
      as (_ & _ & _ & [H|(e & H & Ht)]); fold w1 in H; rewrite H.
    - assumption.
    - apply Forall_app. split; [assumption|].
      constructor; [|constructor].
      now apply (targetOptions_layout (cities w) (batteries w)). }
  pose proof (forEach_inv (fun s => enemiesRef s = enemiesRef w1)
                (updateMissile d config ss)
                (fun s a Hs => eq_trans
                   (proj1 (proj2 (proj2 (proj2 (proj2
                      (updateMissile_cells d config ss s a)))))) Hs)
                (missilesRef w1) w1 eq_refl) as Hes.
  destruct (forEach (updateMissile d config ss) w1 (missilesRef w1))
    as [w2 ms]. simpl in Hes.
  pose proof (forEach_related (fun e e' : Enemy => e_target e' = e_target e)
                (updateEnemy d ss)
                (fun s a => updateEnemy_target d ss s a)
                (enemiesRef (set_missilesRef ms w2)) (set_missilesRef ms w2))
    as Hrel.
  destruct (forEach (updateEnemy d ss) (set_missilesRef ms w2)
                    (enemiesRef (set_missilesRef ms w2))) as [w4 es].
  simpl in Hrel. simpl. rewrite Hes in Hrel.
  clear -Hrel H1. induction Hrel as [|e e' l l' H _ IH]; [constructor|].
  inversion H1; subst. constructor; [|auto]. now rewrite H.
Qed.

Lemma update_aimed d time w : aimed w -> aimed (update d time w).
Proof.
  intros (Hc & Hb & He). destruct (update_wear d time w) as [Wb Wc].
  split; [|split].
  - rewrite <- Hc. clear -Wc.
    induction Wc as [|c c' l l' H _ IH]; simpl; [reflexivity|].
    destruct H as (_ & -> & _). now rewrite IH.
  - rewrite <- Hb. clear -Wb.
    induction Wb as [|b b' l l' H _ IH]; simpl; [reflexivity|].
    destruct H as (_ & -> & _). now rewrite IH.
  - unfold update. destruct (negb _); [assumption|]. unfold simulate.
    destruct (checkGameOver_cells (batteries (set_lastTimeRef time w))
                (cleanup (advance d (deltaOf time w)
                                  (set_lastTimeRef time w))))
      as (_ & _ & _ & _ & -> & _).
    simpl. apply Forall_forall. intros e Hin.
    apply filter_In in Hin. destruct Hin as [Hin _].
    pose proof (advance_enemies d (deltaOf time w) (set_lastTimeRef time w)
                  Hc Hb He) as Ha.
    rewrite Forall_forall in Ha. now apply Ha.
Qed.

(** X20: however frames, pointer events and overlay buttons follow one
    another after mount, the cities and batteries stand at the positions of
    the fixed layout and every enemy in flight is aimed at one of those
    seven positions. *)
Theorem enemies_aim_at_layout : forall evs,
  map c_pos (cities (play evs initialWorld)) = map c_pos INITIAL_CITIES /\
  map b_pos (batteries (play evs initialWorld)) = map b_pos INITIAL_BATTERIES /\
  Forall (fun e => In (e_target e) layoutPoints)
         (enemiesRef (play evs initialWorld)).
Proof.
  intros evs. change (aimed (play evs initialWorld)).
  assert (G : forall w, aimed w -> aimed (play evs w)).
  { unfold play. induction evs as [|ev evs IH]; intros w Hw; simpl;
      [exact Hw|].
    apply IH. destruct ev as [d time|r cv p|mode| |]; simpl.
    - now apply update_aimed.
    - destruct Hw as (Hc & Hb & He).
      destruct (click_wear r cv p w) as [Wb Wc].
      destruct (click_lists r cv p w) as (Ee & _).
      unfold aimed. rewrite Wc, Ee. repeat split; auto.
      rewrite <- Hb. clear -Wb.
      induction Wb as [|b b' l l' H _ IH]; simpl; [reflexivity|].
      destruct H as (_ & -> & _). now rewrite IH.
    - repeat split; constructor.
    - exact Hw.
    - destruct Hw as (_ & _ & He). repeat split; assumption. }
  apply G. repeat split; constructor.
Qed.

(** * The frame as a whole *)

(** ** What the loops do to the lists *)

Lemma updateMissiles_cells d config ss w :
  let w' := updateMissiles d config ss w in
  gameState w' = gameState w /\ batteries w' = batteries w /\
  cities w' = cities w /\ scoreRef w' = scoreRef w /\
  enemiesRef w' = enemiesRef w.
Proof.
  unfold updateMissiles.
  pose proof (forEach_inv
                (fun s => gameState s = gameState w /\
                          batteries s = batteries w /\ cities s = cities w /\
                          scoreRef s = scoreRef w /\
                          enemiesRef s = enemiesRef w)
                (updateMissile d config ss)) as H.
  specialize (H (fun s a Hs =>
    ltac:(destruct (updateMissile_cells d config ss s a)
            as (-> & -> & -> & -> & -> & _); exact Hs))
    (missilesRef w) w ltac:(now repeat split)).
  destruct (forEach (updateMissile d config ss) w (missilesRef w)) as [w2 ms].
  exact H.
Qed.

Lemma updateMissiles_related (Q : Missile -> Missile -> Prop) d config ss w :
  (forall s m, Q m (snd (updateMissile d config ss s m))) ->
  Forall2 Q (missilesRef w) (missilesRef (updateMissiles d config ss w)).
Proof.
  intros HQ. unfold updateMissiles.
  pose proof (forEach_related Q (updateMissile d config ss) HQ
                (missilesRef w) w) as H.
  destruct (forEach (updateMissile d config ss) w (missilesRef w)) as [w2 ms].
  exact H.
Qed.

Lemma updateEnemies_related (Q : Enemy -> Enemy -> Prop) d ss w :
  (forall s e, Q e (snd (updateEnemy d ss s e))) ->
  Forall2 Q (enemiesRef w) (enemiesRef (updateEnemies d ss w)) /\
  missilesRef (updateEnemies d ss w) = missilesRef w.
Proof.
  intros HQ. unfold updateEnemies.
  pose proof (forEach_related Q (updateEnemy d ss) HQ (enemiesRef w) w) as H.
  pose proof (forEach_inv (fun s => missilesRef s = missilesRef w)
                (updateEnemy d ss)
                (fun s a Hs => eq_trans (updateEnemy_missiles d ss s a) Hs)
                (enemiesRef w) w eq_refl) as Hm.
  destruct (forEach (updateEnemy d ss) w (enemiesRef w)) as [w2 es].
  now split.
Qed.

Lemma reaches_arrived ss pos target speed :
  reaches ss pos target speed <->
  arrived (distance (p_x target - p_x pos) (p_y target - p_y pos))
          (speed * ss) = true.
Proof. unfold reaches, distance. now rewrite arrived_iff. Qed.

Lemma reaches_at_target ss pos speed : reaches ss pos pos speed.
Proof.
  unfold reaches. right.
  replace ((p_x pos - p_x pos) * (p_x pos - p_x pos) +
           (p_y pos - p_y pos) * (p_y pos - p_y pos)) with 0 by lra.
  apply sqrt_0.
Qed.

Lemma updateMissile_step d config ss w m :
  missileStep ss m (snd (updateMissile d config ss w m)).
Proof.
  unfold missileStep.
  destruct (updateMissile_same d config ss w m) as (E1 & E2 & E3 & E4).
  split; [exact E1|]. split; [exact E2|]. split; [exact E3|].
  split; [exact E4|]. split.
  - intros Ha. unfold updateMissile. now rewrite Ha.
  - intros Ha. split; [|split].
    + intros R. apply reaches_arrived in R.
      unfold updateMissile. rewrite Ha, R. simpl. now split.
    + intros R. rewrite reaches_arrived in R. apply not_true_is_false in R.
      unfold updateMissile. rewrite Ha, R. simpl. now split.
    + intros E. pose proof (reaches_at_target ss (m_pos m) (m_speed m)) as R.
      rewrite E in R at 2. apply reaches_arrived in R.
      unfold updateMissile. rewrite Ha, R. simpl. now split.
Qed.

Lemma updateEnemy_same d ss w e :
  let e' := snd (updateEnemy d ss w e) in
  e_id e' = e_id e /\ e_startPos e' = e_startPos e /\
  e_target e' = e_target e /\ e_speed e' = e_speed e.
Proof.
  cbv zeta. unfold updateEnemy. destruct (negb (e_active e)); [auto|].
  assert (H : e_id (snd (moveEnemy d ss w e)) = e_id e /\
              e_startPos (snd (moveEnemy d ss w e)) = e_startPos e /\
              e_target (snd (moveEnemy d ss w e)) = e_target e /\
              e_speed (snd (moveEnemy d ss w e)) = e_speed e)
    by (unfold moveEnemy; break_if; simpl; auto).
  destruct (moveEnemy d ss w e) as [w1 e1]. simpl in H.
  destruct H as (<- & <- & <- & <-).
  generalize (explosionsRef w1). intros xs. revert w1 e1.
  induction xs as [|exp xs IH]; intros w1 e1; cbn [fold_left]; [auto|].
  destruct (blastHits e1 exp) eqn:B.
  - rewrite collide_hit by assumption.
    destruct (IH (scoreHit w1)
                 (mkEnemy (e_id e1) (e_pos e1) (e_startPos e1) (e_target e1)
                          (e_speed e1) (e_radius e1) (e_color e1) false))
      as (-> & -> & -> & ->). simpl. auto.
  - rewrite collide_miss by assumption. apply IH.
Qed.

Lemma updateEnemy_step d ss w e :
  enemyStep ss e (snd (updateEnemy d ss w e)).
Proof.
  unfold enemyStep.
  destruct (updateEnemy_same d ss w e) as (E1 & E2 & E3 & E4).
  split; [exact E1|]. split; [exact E2|]. split; [exact E3|].
  split; [exact E4|]. split.
  - intros Ha. unfold updateEnemy. now rewrite Ha.
  - intros Ha.
    assert (Arr : reaches ss (e_pos e) (e_target e) (e_speed e) ->
                  e_active (snd (updateEnemy d ss w e)) = false /\
                  e_pos (snd (updateEnemy d ss w e)) = e_pos e).
    { intros R. apply reaches_arrived in R.
      rewrite updateEnemy_active by assumption.
      rewrite moveEnemy_arrive by assumption. simpl fst.
      match goal with
      | |- context[fold_left collide ?xs (?w0, ?e0)] =>
          destruct (fold_collide_spec xs w0 e0) as (_ & Hp & _ & _ & Hact)
      end.
      rewrite Hp, Hact. simpl. split; [now destruct (_ =? 0)%nat|reflexivity]. }
    split; [exact Arr|]. split.
    + intros R. rewrite reaches_arrived in R. apply not_true_is_false in R.
      rewrite updateEnemy_active by assumption.
      rewrite moveEnemy_move by assumption. simpl fst.
      match goal with
      | |- context[fold_left collide ?xs (?w0, ?e0)] =>
          destruct (fold_collide_spec xs w0 e0) as (_ & Hp & _)
      end.
      rewrite Hp. reflexivity.
    + intros E. apply Arr.
      pose proof (reaches_at_target ss (e_pos e) (e_speed e)) as R.
      now rewrite E in R at 2.
Qed.

Lemma update_lists d time w :
  gs_status (gameState w) = PLAYING ->
  missilesRef (update d time w) =
    filter m_active
      (missilesRef (advance d (deltaOf time w) (set_lastTimeRef time w))) /\
  enemiesRef (update d time w) =
    filter e_active
      (enemiesRef (advance d (deltaOf time w) (set_lastTimeRef time w))) /\
  explosionsRef (update d time w) =
    filter x_active
      (explosionsRef (advance d (deltaOf time w) (set_lastTimeRef time w))).
Proof.
  intros Hp. rewrite update_playing_eq by assumption.
  destruct (checkGameOver_cells (batteries w)
              (cleanup (advance d (deltaOf time w) (set_lastTimeRef time w))))
    as (_ & _ & _ & -> & -> & -> & _).
  repeat split.
Qed.

(** ** Kinematics *)

(** C3: in a frame of a PLAYING world the scale is the frame's delta over
    16.67; every missile the world held and every enemy it holds after the
    spawn block is stepped once with it: an active one whose distance to its
    target is at most [speed * scale], or 0, is deactivated where it stands
    (so one already at its target arrives at once), any other active one is
    moved by [(direction / distance) * speed * scale] along both axes, an
    inactive one is left alone; the frame then keeps the active ones. *)
Theorem kinematics_step : forall d time w,
  gs_status (gameState w) = PLAYING ->
  let deltaTime := deltaOf time w in
  let speedScale := deltaTime / (1667 / 100) in
  let spawned :=
    spawnEnemies d (MODE_CONFIGS (gs_mode (gameState w))) deltaTime
                 (cities w) (batteries w) (set_lastTimeRef time w) in
  let stepped := advance d deltaTime (set_lastTimeRef time w) in
  Forall2 (missileStep speedScale) (missilesRef w) (missilesRef stepped) /\
  (enemiesRef spawned = enemiesRef w \/
   exists e, enemiesRef spawned = enemiesRef w ++ [e]) /\
  Forall2 (enemyStep speedScale) (enemiesRef spawned) (enemiesRef stepped) /\
  missilesRef (update d time w) = filter m_active (missilesRef stepped) /\
  enemiesRef (update d time w) = filter e_active (enemiesRef stepped).
Proof.
  intros d time w Hp. cbv zeta.
  destruct (update_lists d time w Hp) as (Um & Ue & _).
  split; [|split; [|split; [|split; [exact Um|exact Ue]]]].
  - unfold advance. simpl missilesRef at 1.
    set (config := MODE_CONFIGS _). set (ss := deltaOf time w / (1667 / 100)).
    set (w1 := spawnEnemies _ _ _ _ _ _).
    destruct (updateEnemies_related (fun _ _ => True) d ss
                (updateMissiles d config ss w1) (fun _ _ => I)) as [_ Em].
    unfold updateExplosions. simpl. rewrite Em.
    destruct (spawnEnemies_cells d config (deltaOf time w)
                (cities (set_lastTimeRef time w))
                (batteries (set_lastTimeRef time w)) (set_lastTimeRef time w))
      as (_ & _ & _ & _ & Hm & _).
    fold w1 in Hm. simpl in Hm. rewrite <- Hm.
    apply updateMissiles_related. intros s m. apply updateMissile_step.
  - destruct (spawnEnemies_timer d (MODE_CONFIGS (gs_mode (gameState w)))
                (deltaOf time w) (cities w) (batteries w)
                (set_lastTimeRef time w)) as (_ & _ & _ & [H|(e & H & _)]).
    + left. exact H.
    + right. exists e. exact H.
  - unfold advance, updateExplosions. simpl.
    set (config := MODE_CONFIGS _). set (ss := deltaOf time w / (1667 / 100)).
    set (w1 := spawnEnemies _ _ _ _ _ _).
    destruct (updateMissiles_cells d config ss w1) as (_ & _ & _ & _ & He).
    rewrite <- He.
    apply updateEnemies_related. intros s e. apply updateEnemy_step.
Qed.

Lemma primed_eq :
  primed = set_lastTimeRef (1667 / 100) (startGame LOW initialWorld).
Proof.
  unfold primed. rewrite update_playing_eq by reflexivity.
  replace (deltaOf (1667 / 100) (startGame LOW initialWorld)) with 0
    by (unfold deltaOf; simpl; eval_cmp; lra).
  unfold advance.
  rewrite spawnEnemies_quiet by (simpl; unfold spawnInterval; cmp_true).
  unfold updateExplosions, updateEnemies, updateMissiles, cleanup,
    checkGameOver. simpl.
  cells. f_equal. simpl. lra.
Qed.

Lemma primedClick_eq : primedClick =
  mkWorld (mkGameState 0 1 LOW PLAYING)
    [ mkBattery "b1" (mkPoint 100 560) 19 20 false;
      mkBattery "b2" (mkPoint 400 560) 40 40 false;
      mkBattery "b3" (mkPoint 700 560) 20 20 false ]
    [ mkCity "c1" (mkPoint 200 570) false;
      mkCity "c2" (mkPoint 300 570) false;
      mkCity "c3" (mkPoint 500 570) false;
      mkCity "c4" (mkPoint 600 570) false ]
    [ mkMissile 0 (mkPoint 100 560) (mkPoint 100 560)
        (mkPoint ((100 - 0) * (800 / 800)) ((560 - 0) * (600 / 600)))
        (5 * 1) 2 COLORS.PLAYER_MISSILE true ]
    [] [] (1667 / 100) 0 0.
Proof.
  unfold primedClick. rewrite primed_eq.
  unfold handleCanvasClick, launch, bestBattery. simpl.
  unfold closer. simpl. eval_cmp. simpl. eval_cmp. reflexivity.
Qed.

Lemma secondFrame_explosions : explosionsRef secondFrame = [growingBlast].
Proof.
  unfold secondFrame. rewrite primedClick_eq.
  rewrite update_playing_eq by reflexivity.
  match goal with
  | |- context[deltaOf ?t ?w] =>
      replace (deltaOf t w) with (1667 / 100)
        by (unfold deltaOf; simpl; eval_cmp; lra)
  end.
  unfold advance.
  replace (1667 / 100 / (1667 / 100)) with 1 by lra.
  rewrite spawnEnemies_quiet by (simpl; unfold spawnInterval; cmp_true).
  cells.
  rewrite updateMissile_arrive
    by (try reflexivity; simpl; dist_is 0; unfold arrived; eval_cmp;
        reflexivity).
  cells. unfold updateExplosion. simpl. eval_cmp. reflexivity.
Qed.

Lemma secondFrame_playing : gs_status (gameState secondFrame) = PLAYING.
Proof.
  unfold secondFrame. rewrite primedClick_eq.
  rewrite update_playing_eq by reflexivity.
  match goal with
  | |- context[deltaOf ?t ?w] =>
      replace (deltaOf t w) with (1667 / 100)
        by (unfold deltaOf; simpl; eval_cmp; lra)
  end.
  unfold advance.
  replace (1667 / 100 / (1667 / 100)) with 1 by lra.
  rewrite spawnEnemies_quiet by (simpl; unfold spawnInterval; cmp_true).
  cells.
  rewrite updateMissile_arrive
    by (try reflexivity; simpl; dist_is 0; unfold arrived; eval_cmp;
        reflexivity).
  cells. reflexivity.
Qed.

Lemma secondFrame_run : run secondFrame.
Proof.
  unfold secondFrame. apply run_frame.
  - unfold primedClick. apply run_click. unfold primed. apply run_frame.
    + apply run_start, run_mount.
    + unfold deltaOf. simpl. eval_cmp. lra.
  - rewrite primedClick_eq. unfold deltaOf. simpl. eval_cmp. lra.
Qed.

Lemma kinematics_step_witness :
  gs_status (gameState primedClick) = PLAYING /\
  List.length (missilesRef primedClick) = 1%nat /\
  missilesRef (update noDraws (3334 / 100) primedClick) = [].
Proof.
  assert (H : gs_status (gameState primedClick) = PLAYING)
    by (now rewrite primedClick_eq).
  split; [exact H|]. split; [now rewrite primedClick_eq|].
  destruct (kinematics_step noDraws (3334 / 100) primedClick H)
    as (Hm & _ & _ & Um & _).
  rewrite Um.
  remember (missilesRef (advance noDraws (deltaOf (3334 / 100) primedClick)
                                 (set_lastTimeRef (3334 / 100) primedClick)))
    as ms eqn:Ems.
  clear Ems Um.
  assert (E : missilesRef primedClick =
              [ mkMissile 0 (mkPoint 100 560) (mkPoint 100 560)
                  (mkPoint ((100 - 0) * (800 / 800)) ((560 - 0) * (600 / 600)))
                  (5 * 1) 2 COLORS.PLAYER_MISSILE true ])
    by (now rewrite primedClick_eq).
  rewrite E in Hm.
  inversion Hm as [|m m' l l' Hs Hl E1 E2]. subst.
  inversion Hl. subst.
  destruct Hs as (_ & _ & _ & _ & _ & Hact).
  destruct (Hact eq_refl) as (_ & _ & Hat).
  destruct Hat as [Hoff _]; [simpl; f_equal; lra|].
  simpl. now rewrite Hoff.
Defined.

(** ** Explosions, frame by frame *)

Lemma advance_explosions d dt w :
  exists created,
    explosionsRef (advance d dt w)
    = map updateExplosion (explosionsRef w ++ created) /\
    Forall (fun x => x_active x = true /\ x_isShrinking x = false /\
                     x_radius x = 2) created.
Proof.
  destruct (advance_inv
              (fun s => exists created,
                          explosionsRef s = explosionsRef w ++ created /\
                          Forall (fun x => x_active x = true /\
                                           x_isShrinking x = false /\
                                           x_radius x = 2) created)
              d dt w) as (w5 & -> & created & E & Hc).
  - exists []. rewrite spawnEnemies_explosions, app_nil_r. now split.
  - intros w' m (created & E & Hc). unfold updateMissile.
    break_if; simpl; try (now exists created).
    exists (created ++
            [mkExplosion (d_blastId d (List.length (explosionsRef w')))
               (m_target m) 0 2
               (96 * powerMult (MODE_CONFIGS (gs_mode (gameState w))))
               (3 * (dt / (1667 / 100))) false COLORS.EXPLOSION true]).
    rewrite E, <- app_assoc. split; [reflexivity|].
    apply Forall_app. split; [assumption|]. now repeat constructor.
  - intros w' e (created & E & Hc). unfold updateEnemy.
    destruct (negb (e_active e)); [now exists created|].
    assert (H1 : exists created',
               explosionsRef (fst (moveEnemy d (dt / (1667 / 100)) w' e))
               = explosionsRef w ++ created' /\
               Forall (fun x => x_active x = true /\ x_isShrinking x = false /\
                                x_radius x = 2) created').
    { unfold moveEnemy. break_if; simpl; [|now exists created].
      eexists (created ++ [_]). rewrite E, <- app_assoc.
      split; [reflexivity|]. apply Forall_app. split; [assumption|].
      now repeat constructor. }
    destruct (moveEnemy d (dt / (1667 / 100)) w' e) as [w1 e1].
    apply (fold_collide_inv
             (fun s => exists created0,
                 explosionsRef s = explosionsRef w ++ created0 /\
                 Forall (fun x => x_active x = true /\ x_isShrinking x = false /\
                                  x_radius x = 2) created0));
      [intros s Hs; exact Hs | exact H1].
  - intros w' ms H. exact H.
  - intros w' es H. exact H.
  - exists created. simpl. now rewrite E.
Qed.

(** C5: every explosion the program holds, under a non-decreasing clock,
    moves through growing, shrinking and retired, one update per frame: a
    frame of a PLAYING world updates once each explosion it held and each
    one created in it (created active, growing, with radius 2) and then
    drops the retired ones; while active and not shrinking the update adds
    [growthRate] to the radius and turns on [isShrinking] exactly when the
    radius has reached [maxRadius]; while shrinking it takes off half of
    [growthRate] and deactivates the explosion exactly when the radius is at
    or below 0; a retired explosion is left alone; and an active explosion's
    radius is never negative and never above [maxRadius] by more than
    [growthRate], before and after the update. *)
Theorem explosion_lifecycle : forall d time w exp,
  run w -> In exp (explosionsRef w) ->
  let exp' := updateExplosion exp in
  (x_active exp = true ->
   0 <= x_radius exp <= x_maxRadius exp + x_growthRate exp) /\
  (x_active exp = true -> x_isShrinking exp = false ->
   x_radius exp' = x_radius exp + x_growthRate exp /\
   (x_isShrinking exp' = true <-> x_radius exp' >= x_maxRadius exp) /\
   x_active exp' = true) /\
  (x_active exp = true -> x_isShrinking exp = true ->
   x_radius exp' = x_radius exp - x_growthRate exp * (5 / 10) /\
   x_isShrinking exp' = true /\
   (x_active exp' = false <-> x_radius exp' <= 0)) /\
  (x_active exp = false -> exp' = exp) /\
  x_maxRadius exp' = x_maxRadius exp /\
  x_growthRate exp' = x_growthRate exp /\
  (x_active exp' = true ->
   0 <= x_radius exp' <= x_maxRadius exp + x_growthRate exp) /\
  (gs_status (gameState w) = PLAYING ->
   exists created,
     Forall (fun x => x_active x = true /\ x_isShrinking x = false /\
                      x_radius x = 2) created /\
     explosionsRef (update d time w)
     = filter x_active (map updateExplosion (explosionsRef w ++ created)) /\
     (x_active exp' = true -> In exp' (explosionsRef (update d time w)))).
Proof.
  intros d time w exp Hrun Hin exp'.
  pose proof (run_blasts w Hrun) as Hall. rewrite Forall_forall in Hall.
  specialize (Hall exp Hin).
  pose proof (updateExplosion_inv exp Hall) as Hinv'. fold exp' in Hinv'.
  assert (Hm : x_maxRadius exp' = x_maxRadius exp /\
               x_growthRate exp' = x_growthRate exp).
  { unfold exp', updateExplosion. break_if; simpl; auto. }
  destruct Hm as [Hm Hg].
  split; [intros Ha; now apply Hall|].
  split; [apply updateExplosion_growing|].
  split; [apply updateExplosion_shrinking|].
  split; [apply updateExplosion_retired|].
  split; [assumption|]. split; [assumption|]. split.
  - intros Ha. destruct Hinv' as [_ H]. specialize (H Ha).
    rewrite Hm, Hg in H. tauto.
  - intros Hp. destruct (update_lists d time w Hp) as (_ & _ & Ux).
    destruct (advance_explosions d (deltaOf time w) (set_lastTimeRef time w))
      as (created & E & Hc).
    exists created. split; [exact Hc|]. rewrite Ux, E. simpl.
    split; [reflexivity|].
    intros Ha. apply filter_In. split; [|exact Ha].
    apply in_map. apply in_or_app. now left.
Qed.

Lemma explosion_lifecycle_witness :
  run secondFrame /\ In growingBlast (explosionsRef secondFrame) /\
  gs_status (gameState secondFrame) = PLAYING /\
  0 < x_growthRate growingBlast /\
  x_radius (updateExplosion growingBlast)
  = x_radius growingBlast + x_growthRate growingBlast /\
  In (updateExplosion growingBlast)
     (explosionsRef (update noDraws (5001 / 100) secondFrame)).
Proof.
  assert (Hin : In growingBlast (explosionsRef secondFrame))
    by (rewrite secondFrame_explosions; now left).
  split; [exact secondFrame_run|]. split; [exact Hin|].
  split; [exact secondFrame_playing|].
  split; [simpl; lra|].
  destruct (explosion_lifecycle noDraws (5001 / 100) secondFrame growingBlast
              secondFrame_run Hin)
    as (_ & Hgrow & _ & _ & _ & _ & _ & Hframe).
  destruct (Hgrow eq_refl eq_refl) as (Hr & _ & Ha).
  split; [exact Hr|].
  destruct (Hframe secondFrame_playing) as (created & _ & _ & Hkeep).
  exact (Hkeep Ha).
Defined.

(** ** Impacts, frame by frame *)

(** One enemy's round writes the ground cells and the explosion list exactly
    when it reaches the impact branch, and with the enemy's position. *)
Lemma updateEnemy_impact d ss w e :
  let w' := fst (updateEnemy d ss w e) in
  cities w' = (if arrivesNow ss e then impactCities (e_pos e) (cities w)
               else cities w) /\
  batteries w' = (if arrivesNow ss e
                  then impactBatteries (e_pos e) (batteries w)
                  else batteries w) /\
  explosionsRef w' =
    (if arrivesNow ss e
     then explosionsRef w ++
          [mkExplosion (d_blastId d (List.length (explosionsRef w)))
                       (e_pos e) 0 2 36 (24 / 10 * ss) false
                       COLORS.ENEMY_MISSILE true]
     else explosionsRef w).
Proof.
  cbv zeta. unfold updateEnemy, arrivesNow.
  destruct (e_active e); simpl; [|auto].
  set (cs := if arrived _ _ then impactCities (e_pos e) (cities w)
             else cities w).
  set (bs := if arrived _ _ then impactBatteries (e_pos e) (batteries w)
             else batteries w).
  set (xs := if arrived _ _ then _ else explosionsRef w).
  assert (H : cities (fst (moveEnemy d ss w e)) = cs /\
              batteries (fst (moveEnemy d ss w e)) = bs /\
              explosionsRef (fst (moveEnemy d ss w e)) = xs).
  { subst cs bs xs. unfold moveEnemy. destruct (arrived _ _); simpl; auto. }
  destruct (moveEnemy d ss w e) as [w1 e1]. simpl in H.
  apply (fold_collide_inv
           (fun s => cities s = cs /\ batteries s = bs /\
                     explosionsRef s = xs));
    [intros s Hs; exact Hs | exact H].
Qed.

Lemma forEach_impacts d ss es : forall w,
  let w' := fst (forEach (updateEnemy d ss) w es) in
  cities w' = fold_left (fun cs p => impactCities p cs)
                        (impactPoints ss es) (cities w) /\
  batteries w' = fold_left (fun bs p => impactBatteries p bs)
                           (impactPoints ss es) (batteries w) /\
  map x_pos (explosionsRef w') =
    map x_pos (explosionsRef w) ++ impactPoints ss es.
Proof.
  unfold impactPoints.
  induction es as [|e es IH]; intros w; cbv zeta.
  - simpl. now rewrite app_nil_r.
  - cbn [forEach filter].
    destruct (updateEnemy_impact d ss w e) as (Hc & Hb & Hx).
    destruct (updateEnemy d ss w e) as [w1 e1]. simpl in Hc, Hb, Hx.
    specialize (IH w1). cbv zeta in IH.
    destruct (forEach (updateEnemy d ss) w1 es) as [w2 es2]. simpl in IH |- *.
    destruct IH as (IHc & IHb & IHx).
    rewrite IHc, IHb, IHx, Hc, Hb, Hx.
    destruct (arrivesNow ss e); simpl; [|auto].
    rewrite map_app, <- app_assoc. simpl. auto.
Qed.

Lemma impactCities_fold ps : forall cs,
  fold_left (fun cs p => impactCities p cs) ps cs =
  map (fun c => if existsb (near 25 (c_pos c)) ps
                then mkCity (c_id c) (c_pos c) true else c) cs.
Proof.
  induction ps as [|p ps IH]; intros cs; simpl.
  - symmetry. apply map_id.
  - rewrite IH. unfold impactCities. rewrite map_map. apply map_ext.
    intros c. destruct (near 25 (c_pos c) p); simpl; [|reflexivity].
    now destruct (existsb _ ps).
Qed.

Lemma impactBatteries_fold ps : forall bs,
  fold_left (fun bs p => impactBatteries p bs) ps bs =
  map (fun b => if existsb (near 35 (b_pos b)) ps
                then mkBattery (b_id b) (b_pos b) (b_missiles b)
                               (b_maxMissiles b) true
                else b) bs.
Proof.
  induction ps as [|p ps IH]; intros bs; simpl.
  - symmetry. apply map_id.
  - rewrite IH. unfold impactBatteries. rewrite map_map. apply map_ext.
    intros b. destruct (near 35 (b_pos b) p); simpl; [|reflexivity].
    now destruct (existsb _ ps).
Qed.

Lemma existsb_near k q ps :
  existsb (near k q) ps = true <->
  Exists (fun p => Rabs (p_x q - p_x p) < k /\ Rabs (p_y q - p_y p) < k) ps.
Proof.
  rewrite existsb_exists, Exists_exists.
  split; intros (p & Hin & H); exists p; (split; [assumption|]);
    now apply near_iff.
Qed.

(** The ground cells and the explosions at the end of the three loops. *)
Lemma advance_impacts d dt w :
  let ss := dt / (1667 / 100) in
  let spawned := spawnEnemies d (MODE_CONFIGS (gs_mode (gameState w))) dt
                              (cities w) (batteries w) w in
  let flown := updateMissiles d (MODE_CONFIGS (gs_mode (gameState w))) ss
                              spawned in
  let impacts := impactPoints ss (enemiesRef spawned) in
  cities (advance d dt w) =
    fold_left (fun cs p => impactCities p cs) impacts (cities w) /\
  batteries (advance d dt w) =
    fold_left (fun bs p => impactBatteries p bs) impacts (batteries w) /\
  map x_pos (explosionsRef (advance d dt w)) =
    map x_pos (explosionsRef flown) ++ impacts.
Proof.
  cbv zeta. unfold advance.
  set (config := MODE_CONFIGS (gs_mode (gameState w))).
  set (ss := dt / (1667 / 100)).
  set (spawned := spawnEnemies d config dt (cities w) (batteries w) w).
  set (flown := updateMissiles d config ss spawned).
  destruct (spawnEnemies_cells d config dt (cities w) (batteries w) w)
    as (_ & Hb0 & Hc0 & _). fold spawned in Hb0, Hc0.
  destruct (updateMissiles_cells d config ss spawned)
    as (_ & Hb1 & Hc1 & _ & He1). fold flown in Hb1, Hc1, He1.
  destruct (forEach_impacts d ss (enemiesRef flown) flown) as (Hc & Hb & Hx).
  unfold updateExplosions, updateEnemies.
  destruct (forEach (updateEnemy d ss) flown (enemiesRef flown)) as [w3 es3].
  simpl in Hc, Hb, Hx |- *.
  rewrite Hc, Hb, Hc1, Hb1, Hc0, Hb0, He1.
  split; [reflexivity|]. split; [reflexivity|].
  rewrite He1 in Hx. rewrite map_map, <- Hx. apply map_ext.
  intros x. unfold updateExplosion. break_if; reflexivity.
Qed.

Lemma update_ground d time w :
  gs_status (gameState w) = PLAYING ->
  cities (update d time w) =
    cities (advance d (deltaOf time w) (set_lastTimeRef time w)) /\
  batteries (update d time w) =
    batteries (advance d (deltaOf time w) (set_lastTimeRef time w)).
Proof.
  intros Hp. rewrite update_playing_eq by assumption.
  destruct (checkGameOver_cells (batteries w)
              (cleanup (advance d (deltaOf time w) (set_lastTimeRef time w))))
    as (_ & -> & -> & _).
  split; reflexivity.
Qed.

(** A frame on which an enemy lands four units above city c1; the frames
    are at 16.67 ms and 33.34 ms. *)
Lemma strike_impacts :
  impactPoints (deltaOf (3334 / 100) strikeWorld / (1667 / 100))
    (enemiesRef
       (spawnEnemies noDraws (MODE_CONFIGS (gs_mode (gameState strikeWorld)))
          (deltaOf (3334 / 100) strikeWorld) (cities strikeWorld)
          (batteries strikeWorld)
          (set_lastTimeRef (3334 / 100) strikeWorld)))
  = [mkPoint 200 566].
Proof.
  replace (deltaOf (3334 / 100) strikeWorld) with (1667 / 100)
    by (unfold deltaOf; simpl; eval_cmp; lra).
  replace (1667 / 100 / (1667 / 100)) with 1 by lra.
  rewrite spawnEnemies_quiet by (simpl; unfold spawnInterval; cmp_true).
  unfold impactPoints, arrivesNow. simpl. dist_is 4. unfold arrived.
  eval_cmp. reflexivity.
Qed.

(** C6: in a frame of a PLAYING world, the points of impact are the
    positions, at that moment, of the active enemies that arrive, and every
    city is tested against each of them with threshold 25 and every battery
    with threshold 35, on both axes: a city or battery is destroyed at the
    end of the frame exactly when it was destroyed before or its own test
    holds for some impact, whatever happens to the others, and nothing else
    of it changes; and neither a frame nor a pointer event ever clears a
    destroyed flag. *)
Theorem ground_impact : forall d time w,
  (gs_status (gameState w) = PLAYING ->
   let speedScale := deltaOf time w / (1667 / 100) in
   let spawned :=
     spawnEnemies d (MODE_CONFIGS (gs_mode (gameState w))) (deltaOf time w)
                  (cities w) (batteries w) (set_lastTimeRef time w) in
   let impacts := impactPoints speedScale (enemiesRef spawned) in
   let w' := update d time w in
   Forall2 (fun c c' =>
              c_id c' = c_id c /\ c_pos c' = c_pos c /\
              (c_destroyed c' = true <->
               c_destroyed c = true \/
               Exists (fun impact =>
                         Rabs (p_x (c_pos c) - p_x impact) < 25 /\
                         Rabs (p_y (c_pos c) - p_y impact) < 25) impacts))
           (cities w) (cities w') /\
   Forall2 (fun b b' =>
              b_id b' = b_id b /\ b_pos b' = b_pos b /\
              b_missiles b' = b_missiles b /\
              b_maxMissiles b' = b_maxMissiles b /\
              (b_destroyed b' = true <->
               b_destroyed b = true \/
               Exists (fun impact =>
                         Rabs (p_x (b_pos b) - p_x impact) < 35 /\
                         Rabs (p_y (b_pos b) - p_y impact) < 35) impacts))
           (batteries w) (batteries w')) /\
  (Forall2 (fun c c' => c_destroyed c = true -> c_destroyed c' = true)
           (cities w) (cities (update d time w)) /\
   Forall2 (fun b b' => b_destroyed b = true -> b_destroyed b' = true)
           (batteries w) (batteries (update d time w))) /\
  (forall r cv ev,
     cities (handleCanvasClick r cv ev w) = cities w /\
     Forall2 (fun b b' => b_destroyed b = true -> b_destroyed b' = true)
             (batteries w) (batteries (handleCanvasClick r cv ev w))).
Proof.
  intros d time w. split; [|split].
  - intros Hp. cbv zeta.
    destruct (update_ground d time w Hp) as (-> & ->).
    destruct (advance_impacts d (deltaOf time w) (set_lastTimeRef time w))
      as (Hc & Hb & _).
    cbn [gameState cities batteries set_lastTimeRef] in Hc, Hb.
    rewrite Hc, Hb, impactCities_fold, impactBatteries_fold.
    split.
    + apply Forall2_map_self. intros c.
      destruct (existsb _ _) eqn:E; simpl.
      * apply existsb_near in E. tauto.
      * rewrite <- not_true_iff_false, existsb_near in E. tauto.
    + apply Forall2_map_self. intros b.
      destruct (existsb _ _) eqn:E; simpl.
      * apply existsb_near in E. tauto.
      * rewrite <- not_true_iff_false, existsb_near in E. tauto.
  - destruct (update_wear d time w) as [Hb Hc]. split.
    + eapply Forall2_weaken; [|exact Hc]. unfold c_wear. tauto.
    + eapply Forall2_weaken; [|exact Hb]. unfold b_wear. tauto.
  - intros r cv ev. destruct (click_wear r cv ev w) as [Hb Hc].
    split; [assumption|].
    eapply Forall2_weaken; [|exact Hb]. simpl. intros a b (_ & _ & _ & ->).
    tauto.
Qed.

Lemma ground_impact_witness :
  gs_status (gameState strikeWorld) = PLAYING /\
  In (mkCity "c1" (mkPoint 200 570) false) (cities strikeWorld) /\
  exists c' rest,
    cities (update noDraws (3334 / 100) strikeWorld) = c' :: rest /\
    c_id c' = "c1"%string /\ c_destroyed c' = true.
Proof.
  split; [reflexivity|]. split; [now left|].
  destruct (ground_impact noDraws (3334 / 100) strikeWorld) as (H & _).
  specialize (H eq_refl). cbv zeta in H. destruct H as (Hc & _).
  rewrite strike_impacts in Hc.
  change (cities strikeWorld) with INITIAL_CITIES in Hc.
  unfold INITIAL_CITIES in Hc.
  inversion Hc as [|c c' l l' (Hid & _ & Hd) _ E1 E2]. subst.
  exists c', l'. split; [reflexivity|]. split; [exact Hid|].
  apply Hd. right. constructor. simpl.
  split; unfold Rabs; destruct (Rcase_abs _); lra.
Defined.

(** ** The score, frame by frame *)

Lemma forEach_score d ss es : forall w,
  scoreRef (fst (forEach (updateEnemy d ss) w es)) =
  (scoreRef w + 20 * Z.of_nat (collisionHits d ss w es))%Z.
Proof.
  induction es as [|e es IH]; intros w.
  - simpl. lia.
  - cbn [forEach collisionHits].
    pose proof (updateEnemy_score d ss w e) as Hs.
    specialize (IH (fst (updateEnemy d ss w e))).
    destruct (updateEnemy d ss w e) as [w1 e1]. cbn [fst] in Hs, IH |- *.
    destruct (forEach (updateEnemy d ss) w1 es) as [w2 es2].
    cbn [fst] in IH |- *.
    rewrite IH, Hs. destruct (e_active e); lia.
Qed.

Lemma updateMissiles_score d config ss w :
  scoreRef (updateMissiles d config ss w) = scoreRef w.
Proof. now destruct (updateMissiles_cells d config ss w) as (_ & _ & _ & -> & _). Qed.

Lemma updateEnemies_score d ss w :
  scoreRef (updateEnemies d ss w) =
  (scoreRef w + 20 * Z.of_nat (collisionHits d ss w (enemiesRef w)))%Z.
Proof.
  unfold updateEnemies. pose proof (forEach_score d ss (enemiesRef w) w) as H.
  destruct (forEach (updateEnemy d ss) w (enemiesRef w)) as [w' es].
  exact H.
Qed.

Lemma updateExplosions_score w : scoreRef (updateExplosions w) = scoreRef w.
Proof. reflexivity. Qed.

Lemma update_score d time w :
  let config := MODE_CONFIGS (gs_mode (gameState w)) in
  let speedScale := deltaOf time w / (1667 / 100) in
  let flown :=
    updateMissiles d config speedScale
      (spawnEnemies d config (deltaOf time w) (cities w) (batteries w)
                    (set_lastTimeRef time w)) in
  scoreRef (update d time w) =
  (if Status_eqb (gs_status (gameState w)) PLAYING
   then scoreRef w
        + 20 * Z.of_nat (collisionHits d speedScale flown (enemiesRef flown))
   else scoreRef w)%Z.
Proof.
  cbv zeta. unfold update.
  change (gameState (set_lastTimeRef time w)) with (gameState w).
  destruct (Status_eqb (gs_status (gameState w)) PLAYING); cbn [negb];
    [|reflexivity].
  unfold simulate.
  destruct (checkGameOver_cells (batteries (set_lastTimeRef time w))
              (cleanup (advance d (deltaOf time w)
                                (set_lastTimeRef time w)))) as (-> & _).
  rewrite cleanup_score. unfold advance.
  rewrite updateExplosions_score, updateEnemies_score, updateMissiles_score.
  destruct (spawnEnemies_cells d
              (MODE_CONFIGS (gs_mode (gameState (set_lastTimeRef time w))))
              (deltaOf time w) (cities (set_lastTimeRef time w))
              (batteries (set_lastTimeRef time w)) (set_lastTimeRef time w))
    as (_ & _ & _ & -> & _).
  reflexivity.
Qed.

(** C8: over a frame the score never decreases, and what a PLAYING frame
    adds to it is exactly 20 for every collision test that succeeds while
    the enemy loop runs, and nothing outside PLAYING; the only write to the
    score is the one a successful test makes: one enemy's pass adds 20 per
    explosion whose test succeeds, the enemy loop adds that up over the
    enemies, and spawning, the missile loop, moving, impacts, the explosion
    loop, pruning, the final check and pointer events leave the score as it
    is. *)
Theorem score_increments : forall d time w,
  (forall e exp,
     scoreRef (fst (collide (w, e) exp)) =
     (if blastHits e exp then scoreRef w + 20 else scoreRef w)%Z) /\
  (forall speedScale e,
     scoreRef (fst (updateEnemy d speedScale w e)) =
     (if e_active e
      then scoreRef w + 20 * Z.of_nat
             (List.length
                (filter (blastHits (snd (moveEnemy d speedScale w e)))
                        (explosionsRef (fst (moveEnemy d speedScale w e)))))
      else scoreRef w)%Z) /\
  (forall config deltaTime speedScale cs bs m e,
     scoreRef (spawnEnemies d config deltaTime cs bs w) = scoreRef w /\
     scoreRef (fst (updateMissile d config speedScale w m)) = scoreRef w /\
     scoreRef (fst (moveEnemy d speedScale w e)) = scoreRef w /\
     scoreRef (cleanup w) = scoreRef w /\
     scoreRef (checkGameOver bs w) = scoreRef w) /\
  (forall config speedScale,
     scoreRef (updateMissiles d config speedScale w) = scoreRef w /\
     scoreRef (updateEnemies d speedScale w) =
       (scoreRef w
        + 20 * Z.of_nat (collisionHits d speedScale w (enemiesRef w)))%Z /\
     scoreRef (updateExplosions w) = scoreRef w) /\
  (forall r cv ev, scoreRef (handleCanvasClick r cv ev w) = scoreRef w) /\
  (let config := MODE_CONFIGS (gs_mode (gameState w)) in
   let speedScale := deltaOf time w / (1667 / 100) in
   let flown :=
     updateMissiles d config speedScale
       (spawnEnemies d config (deltaOf time w) (cities w) (batteries w)
                     (set_lastTimeRef time w)) in
   scoreRef (update d time w) =
   (if Status_eqb (gs_status (gameState w)) PLAYING
    then scoreRef w
         + 20 * Z.of_nat (collisionHits d speedScale flown (enemiesRef flown))
    else scoreRef w)%Z) /\
  (exists k : nat,
     scoreRef (update d time w) = (scoreRef w + 20 * Z.of_nat k)%Z) /\
  (scoreRef w <= scoreRef (update d time w))%Z.
Proof.
  intros d time w.
  pose proof (update_score d time w) as Hu. cbv zeta in Hu.
  split; [intros; apply collide_score|].
  split; [intros; apply updateEnemy_score|].
  split.
  { intros config deltaTime ss cs bs m e.
    destruct (spawnEnemies_cells d config deltaTime cs bs w)
      as (_ & _ & _ & -> & _).
    destruct (updateMissile_cells d config ss w m) as (_ & _ & _ & -> & _).
    destruct (checkGameOver_cells bs w) as (-> & _).
    rewrite moveEnemy_score. repeat split. }
  split.
  { intros config ss. rewrite updateMissiles_score, updateEnemies_score.
    repeat split. }
  split; [intros; apply click_score|].
  split; [exact Hu|].
  destruct (Status_eqb _ _).
  - split; [eexists; exact Hu | rewrite Hu; lia].
  - split; [exists 0%nat; rewrite Hu; lia | rewrite Hu; lia].
Qed.

(** ** The pointer handler and the stock *)

Lemma launch_pick r p w :
  stocked w ->
  ((exists b0, In b0 (batteries w) /\ eligible b0 = true) ->
   exists l1 b l2,
     batteries w = l1 ++ b :: l2 /\ eligible b = true /\
     (forall b', In b' (batteries w) -> eligible b' = true ->
        Rabs (p_x (b_pos b) - p_x p) <= Rabs (p_x (b_pos b') - p_x p)) /\
     batteries (launch r p w) = l1 ++ fired b :: l2 /\
     missilesRef (launch r p w) =
       missilesRef w ++
       [mkMissile r (b_pos b) (b_pos b) p
                  (5 * speedMult (MODE_CONFIGS (gs_mode (gameState w)))) 2
                  COLORS.PLAYER_MISSILE true]) /\
  ((forall b0, In b0 (batteries w) -> eligible b0 = false) ->
   launch r p w = w).
Proof.
  intros Hst. split.
  - intros (b0 & Hin0 & He0). unfold launch.
    pose proof (bestBattery_spec (p_x p) (batteries w)) as Hb.
    destruct (bestBattery (p_x p) (batteries w)) as [b|].
    + destruct Hb as (Hin & He & Hmin).
      destruct (in_split _ _ Hin) as (l1 & l2 & E).
      exists l1, b, l2. split; [assumption|]. split; [assumption|]. split.
      * rewrite Forall_forall in Hmin. exact Hmin.
      * simpl. split; [|reflexivity]. rewrite E. apply fire_by_id.
        rewrite <- E. destruct Hst as [-> _]. apply initial_ids_NoDup.
    + rewrite Forall_forall in Hb. specialize (Hb b0 Hin0). congruence.
  - intros Hnone. unfold launch.
    pose proof (bestBattery_spec (p_x p) (batteries w)) as Hb.
    destruct (bestBattery (p_x p) (batteries w)) as [b|]; [|reflexivity].
    destruct Hb as (Hin & He & _). specialize (Hnone b Hin). congruence.
Qed.

Lemma click_playing r c ev w :
  gs_status (gameState w) = PLAYING ->
  handleCanvasClick r (Some c) ev w =
  launch r (mkPoint ((clientX ev - rect_left c) * (cv_width c / rect_width c))
                    ((clientY ev - rect_top c) * (cv_height c / rect_height c)))
         w.
Proof. intros H. unfold handleCanvasClick. now rewrite H. Qed.

(** C9: in a reachable world whose status is PLAYING, a pointer event on
    the canvas is resolved to a playfield point [p] and the handler picks,
    among the standing batteries that still hold a missile, one at the
    smallest horizontal distance from [p]; exactly that battery loses
    exactly one missile and a missile is created at its position, aimed at
    [p]; with no such battery the event changes nothing; outside PLAYING,
    or without a canvas, the handler changes nothing; and every battery's
    stock stays between 0 and its capacity. *)
Theorem launch_request : forall r canvas ev w,
  reachable w ->
  (gs_status (gameState w) = PLAYING ->
   let w' := handleCanvasClick r (Some canvas) ev w in
   let p := mkPoint ((clientX ev - rect_left canvas)
                     * (cv_width canvas / rect_width canvas))
                    ((clientY ev - rect_top canvas)
                     * (cv_height canvas / rect_height canvas)) in
   ((exists b0, In b0 (batteries w) /\ eligible b0 = true) ->
    exists l1 b l2,
      batteries w = l1 ++ b :: l2 /\ eligible b = true /\
      (forall b', In b' (batteries w) -> eligible b' = true ->
         Rabs (p_x (b_pos b) - p_x p) <= Rabs (p_x (b_pos b') - p_x p)) /\
      batteries w' = l1 ++ fired b :: l2 /\
      missilesRef w' =
        missilesRef w ++
        [mkMissile r (b_pos b) (b_pos b) p
                   (5 * speedMult (MODE_CONFIGS (gs_mode (gameState w)))) 2
                   COLORS.PLAYER_MISSILE true]) /\
   ((forall b0, In b0 (batteries w) -> eligible b0 = false) -> w' = w)) /\
  (forall cv, gs_status (gameState w) <> PLAYING ->
              handleCanvasClick r cv ev w = w) /\
  handleCanvasClick r None ev w = w /\
  Forall (fun b => (0 <= b_missiles b <= b_maxMissiles b)%Z) (batteries w) /\
  (forall cv,
     Forall (fun b => (0 <= b_missiles b <= b_maxMissiles b)%Z)
            (batteries (handleCanvasClick r cv ev w))).
Proof.
  intros r c ev w Hr. pose proof (reachable_stocked w Hr) as Hst.
  split; [|split; [|split; [|split]]].
  - intros Hp. cbv zeta. rewrite click_playing by assumption.
    now apply launch_pick.
  - intros cv Hn. unfold handleCanvasClick.
    destruct (gs_status (gameState w)); try reflexivity. congruence.
  - unfold handleCanvasClick. now destruct (negb _).
  - apply Hst.
  - intros cv. apply (reachable_stocked _ (reach_click r cv ev w Hr)).
Qed.

Lemma launch_request_witness :
  reachable (startGame LOW initialWorld) /\
  gs_status (gameState (startGame LOW initialWorld)) = PLAYING /\
  exists l1 b l2,
    batteries (startGame LOW initialWorld) = l1 ++ b :: l2 /\
    batteries (handleCanvasClick 0 (Some unitCanvas) (mkPointer 100 560)
                                 (startGame LOW initialWorld))
    = l1 ++ fired b :: l2.
Proof.
  assert (Hr : reachable (startGame LOW initialWorld))
    by apply reach_start, reach_mount.
  split; [exact Hr|]. split; [reflexivity|].
  destruct (launch_request 0 unitCanvas (mkPointer 100 560)
              (startGame LOW initialWorld) Hr) as (H & _).
  destruct (H eq_refl) as (Hpick & _).
  destruct Hpick as (l1 & b & l2 & E & _ & _ & E' & _).
  - exists (mkBattery "b1" (mkPoint 100 560) 20 20 false).
    split; [now left | reflexivity].
  - exists l1, b, l2. split; assumption.
Defined.

(** ** Where an arriving enemy lands *)

(** C10: when an active enemy arrives, the ground tests and the enemy-class
    explosion of its round use the enemy's position at that moment, never
    its target, and so does the frame: the cities and batteries a PLAYING
    frame leaves are those tested against the positions of the arriving
    enemies, and the explosions of the enemy loop sit at those positions;
    and with a long enough frame such a position is out of reach of the
    target the enemy was aimed at: in [lateWorld] one enemy stops 30 above
    city c1 and one 38 above battery b1, both arrive in the same frame, and
    both targets survive. *)
Theorem impact_short_of_target :
  (forall d speedScale w e,
     let w' := fst (updateEnemy d speedScale w e) in
     cities w' = (if arrivesNow speedScale e
                  then impactCities (e_pos e) (cities w) else cities w) /\
     batteries w' = (if arrivesNow speedScale e
                     then impactBatteries (e_pos e) (batteries w)
                     else batteries w) /\
     explosionsRef w' =
       (if arrivesNow speedScale e
        then explosionsRef w ++
             [mkExplosion (d_blastId d (List.length (explosionsRef w)))
                          (e_pos e) 0 2 36 (24 / 10 * speedScale) false
                          COLORS.ENEMY_MISSILE true]
        else explosionsRef w)) /\
  (forall d time w,
     gs_status (gameState w) = PLAYING ->
     let config := MODE_CONFIGS (gs_mode (gameState w)) in
     let speedScale := deltaOf time w / (1667 / 100) in
     let spawned := spawnEnemies d config (deltaOf time w) (cities w)
                                 (batteries w) (set_lastTimeRef time w) in
     let flown := updateMissiles d config speedScale spawned in
     let stepped := advance d (deltaOf time w) (set_lastTimeRef time w) in
     let impacts := impactPoints speedScale (enemiesRef spawned) in
     cities (update d time w) =
       fold_left (fun cs p => impactCities p cs) impacts (cities w) /\
     batteries (update d time w) =
       fold_left (fun bs p => impactBatteries p bs) impacts (batteries w) /\
     map x_pos (explosionsRef stepped) =
       map x_pos (explosionsRef flown) ++ impacts /\
     explosionsRef (update d time w) =
       filter x_active (explosionsRef stepped)) /\
  (let w' := update noDraws lateTick lateWorld in
   gs_status (gameState lateWorld) = PLAYING /\
   map e_target (enemiesRef lateWorld) = [mkPoint 200 570; mkPoint 100 560] /\
   map e_pos (enemiesRef lateWorld) = [mkPoint 200 540; mkPoint 100 522] /\
   In (mkCity "c1" (mkPoint 200 570) false) (cities lateWorld) /\
   In (mkBattery "b1" (mkPoint 100 560) 20 20 false) (batteries lateWorld) /\
   enemiesRef w' = [] /\
   map x_pos (explosionsRef w') = [mkPoint 200 540; mkPoint 100 522] /\
   In (mkCity "c1" (mkPoint 200 570) false) (cities w') /\
   In (mkBattery "b1" (mkPoint 100 560) 20 20 false) (batteries w')).
Proof.
  split; [|split].
  - intros d ss w e. apply updateEnemy_impact.
  - intros d time w Hp. cbv zeta.
    destruct (update_ground d time w Hp) as (-> & ->).
    destruct (update_lists d time w Hp) as (_ & _ & ->).
    destruct (advance_impacts d (deltaOf time w) (set_lastTimeRef time w))
      as (Hc & Hb & Hx).
    cbn [gameState cities batteries set_lastTimeRef] in Hc, Hb, Hx.
    rewrite Hc, Hb. repeat split. exact Hx.
  - cbv zeta. rewrite lateFrame_eq. simpl. repeat split; auto.
Qed.

Lemma impact_short_of_target_witness :
  gs_status (gameState lateWorld) = PLAYING /\
  cities (update noDraws lateTick lateWorld) =
    fold_left (fun cs p => impactCities p cs)
      (impactPoints (deltaOf lateTick lateWorld / (1667 / 100))
         (enemiesRef
            (spawnEnemies noDraws (MODE_CONFIGS (gs_mode (gameState lateWorld)))
               (deltaOf lateTick lateWorld) (cities lateWorld)
               (batteries lateWorld) (set_lastTimeRef lateTick lateWorld))))
      (cities lateWorld).
Proof.
  split; [reflexivity|].
  destruct impact_short_of_target as (_ & H & _).
  exact (proj1 (H noDraws lateTick lateWorld eq_refl)).
Defined.
